(** * ChromaTerm: the rule compiler, the highlighter and the stream driver

    A shallow embedding of [chromaterm/__init__.py].  Python values are an
    inductive type, Python text is a list of code points, exceptions are an
    explicit [Raise] outcome, and the two output channels are an event trace.
    The libraries the program calls ([regex], [yaml], [argparse], the colour
    table of [chromaterm.colors], the file system and standard input) are
    Section variables: every function below is the program's own code, stated
    over whatever those libraries answer. *)

From Stdlib Require Import ZArith NArith Lia Bool.
From Stdlib Require Import Strings.String Strings.Ascii.
From stdpp Require Import base list gmap strings.

Set Warnings "-register-all".
Local Open Scope bool_scope.

(** ** Text *)

(** A Python [str] is a sequence of Unicode code points. *)
Abbreviation pystr := (list N).

(** Code points of an ASCII literal, to write examples. *)
Definition str (s : string) : pystr :=
  map N_of_ascii (list_ascii_of_string s).

Definition LF : N := 10%N.
Definition CR : N := 13%N.
Definition ESC : N := 27%N.

(** ** Python values, as [yaml.safe_load] builds them *)

Inductive pyval : Type :=
  | PNone
  | PBool (b : bool)
  | PInt (z : Z)
  | PFloat (mantissa exponent : Z)
  | PStr (s : pystr)
  | PList (items : list pyval)
  | PDict (items : list (pyval * pyval)).

(** [bool(v)]: what [not v] tests. *)
Definition truthy (v : pyval) : bool :=
  match v with
  | PNone => false
  | PBool b => b
  | PInt z => negb (z =? 0)%Z
  | PFloat m _ => negb (m =? 0)%Z
  | PStr s => match s with [] => false | _ => true end
  | PList l => match l with [] => false | _ => true end
  | PDict l => match l with [] => false | _ => true end
  end.

Definition isinstance_str (v : pyval) : bool :=
  match v with PStr _ => true | _ => false end.

(** [bool] is a subclass of [int] in Python. *)
Definition isinstance_int (v : pyval) : bool :=
  match v with PInt _ | PBool _ => true | _ => false end.

Definition isinstance_dict (v : pyval) : bool :=
  match v with PDict _ => true | _ => false end.


(** The integer an [int] instance stands for ([True == 1], [False == 0]). *)
Definition int_value (v : pyval) : option Z :=
  match v with
  | PInt z => Some z
  | PBool b => Some (if b then 1%Z else 0%Z)
  | _ => None
  end.

(** ** Exceptions and results *)

Inductive exn : Type :=
  | AttributeError
  | TypeError
  | RegexError
  | SystemExit
  | OSError.

Inductive result (A : Type) : Type :=
  | Ok (a : A)
  | Raise (e : exn).
Arguments Ok {A} a.
Arguments Raise {A} e.

(** Sequencing that stops at the first exception, with stdpp's [x ← m; k]. *)
#[global] Instance result_bind : MBind result := λ A B f m,
  match m with
  | Ok a => f a
  | Raise e => Raise e
  end.

Definition returns {A} (m : result A) : Prop := ∃ a, m = Ok a.

(** A dict keeps its entries in insertion order. [d.get(key)] for a text
    key: only a [str] key can equal it. *)
Fixpoint dict_get (key : pystr) (items : list (pyval * pyval)) : pyval :=
  match items with
  | [] => PNone
  | (PStr k, v) :: rest => if decide (k = key) then v else dict_get key rest
  | _ :: rest => dict_get key rest
  end.

(** [d.get(key, default)]. *)
Fixpoint dict_get_default (key : pystr) (default : pyval)
    (items : list (pyval * pyval)) : pyval :=
  match items with
  | [] => default
  | (PStr k, v) :: rest =>
      if decide (k = key) then v else dict_get_default key default rest
  | _ :: rest => dict_get_default key default rest
  end.

(** [v.get]: only a dict has the method. *)
Definition get_method (v : pyval) : result (list (pyval * pyval)) :=
  match v with
  | PDict items => Ok items
  | _ => Raise AttributeError
  end.

(** ** [str.splitlines(True)] *)

(** The line boundaries of [str.splitlines]. *)
Definition is_linebreak (c : N) : bool :=
  match c with
  | 10 | 11 | 12 | 13 | 28 | 29 | 30 | 133 | 8232 | 8233 => true
  | _ => false
  end%N.

(** A line ends after [c] when [c] is a boundary, except that a carriage
    return directly followed by a line feed ends it after the line feed. *)
Definition ends_line (c : N) (rest : pystr) : bool :=
  is_linebreak c &&
  negb ((c =? CR)%N && match rest with d :: _ => (d =? LF)%N | [] => false end).

Fixpoint splitlines (s : pystr) : list pystr :=
  match s with
  | [] => []
  | c :: rest =>
      if ends_line c rest then [c] :: splitlines rest
      else match splitlines rest with
           | [] => [[c]]
           | l :: ls => (c :: l) :: ls
           end
  end.

(** [lines[:-1]] and [lines[-1]] of a non-empty list. *)
Definition all_but_last (lines : list pystr) : list pystr :=
  take (length lines - 1) lines.

Definition last_line (lines : list pystr) : pystr :=
  default [] (last lines).

(** ** The regular-expression library *)

(** A match object: the span of the whole match in the searched text and the
    spans of the capture groups ([None] for a group that took no part). *)
Record Match : Type := {
  m_start : nat;
  m_end : nat;
  m_groups : list (option (nat * nat))
}.

(** A compiled pattern: its number of capture groups ([.groups]) and the
    leftmost non-overlapping matches it finds in a text, in order. *)
Record Pattern : Type := {
  groups : nat;
  finditer : pystr → list Match
}.

(** [string[i:j]]. *)
Definition slice (i j : nat) (s : pystr) : pystr := take (j - i) (drop i s).

(** [match.group(0)] on a match found in [text]. *)
Definition group0 (text : pystr) (m : Match) : pystr :=
  slice (m_start m) (m_end m) text.

(** ** Compiled rules *)

(** The two closures [get_highlight_repl_func] builds.  The simple one holds
    the colour code and reads [config['reset_string']], an entry that is set
    when the configuration is created and never assigned again; the complex
    one holds the [actions] dict, keyed by group number. *)
Inductive repl_func : Type :=
  | SimpleFunc (color_code reset_string : pystr)
  | ComplexFunc (actions : list (Z * pystr)).

(** Calling the closure on a match whose [group(0)] is [g0]. *)
Definition call_repl (f : repl_func) (g0 : pystr) : pystr :=
  match f with
  | SimpleFunc color_code reset_string => color_code ++ g0 ++ reset_string
  | ComplexFunc actions =>
      if negb (match actions with [] => false | _ => true end)
      then g0
      else g0
  end.

(** The dict [{'regex': regex, 'repl_func': func}]. *)
Record compiled_rule : Type := {
  rule_regex : pyval;
  rule_repl_func : repl_func
}.

(** The strings [parse_rule] and [get_highlight_repl_func] return instead of
    a rule, kept apart by what they say; the two sub-action messages carry the
    key that is formatted into them. *)
Inductive rule_error : Type :=
  | RegexNotFound                       (* 'regex not found' *)
  | RegexNotStringOrInteger             (* 'regex not string or integer' *)
  | ColorNotFound                       (* 'color not found' *)
  | ColorNotStringOrDictionary          (* 'color not string or dictionary' *)
  | SubActionNotInteger (key : pyval)   (* 'sub-action {} not integer' *)
  | SubActionValueNotString (key : pyval) (* 'sub-action {} value not string ' *)
  | InvalidColorCode.                   (* 'invalid color code' *)

(** What rule compilation returns: a dict or a string. *)
Inductive rule_outcome : Type :=
  | Compiled (r : compiled_rule)
  | ErrorString (e : rule_error).

(** [actions[group] = color_code] on a dict keyed by integers. *)
Fixpoint actions_set (group : Z) (code : pystr) (actions : list (Z * pystr))
    : list (Z * pystr) :=
  match actions with
  | [] => [(group, code)]
  | (g, c) :: rest =>
      if (g =? group)%Z then (g, code) :: rest
      else (g, c) :: actions_set group code rest
  end.

(** The configuration dict. *)
Record config : Type := {
  rules : list compiled_rule;
  reset_string : pystr
}.

Definition default_reset_string : pystr := ESC :: str "[0m".

(** ** Output *)

Inductive diagnostic : Type :=
  | ParseError                                   (* 'Parse error:' *)
  | RuleErrorOn (rule : pyval) (e : rule_error). (* 'Rule error on {}: {}' *)

Inductive event : Type :=
  | Print (text : pystr) (flush : bool)  (* print(text, end='', flush=...) *)
  | Eprint (d : diagnostic)              (* eprint(...), on stderr *)
  | OpenFile (path : pystr)
  | ReadStdin (data : pystr)
  | ColorsDemo.

(** A computation that may raise, with the events it performed until then. *)
Definition io (A : Type) : Type := (result A * list event)%type.

Definition ret {A} (a : A) : io A := (Ok a, []).
Definition throw {A} (e : exn) : io A := (Raise e, []).
Definition emit (e : event) : io unit := (Ok tt, [e]).
Definition lift {A} (m : result A) : io A := (m, []).

#[global] Instance io_bind : MBind io := λ A B f m,
  match m with
  | (Ok a, t) => let '(r, t') := f a in (r, t ++ t')
  | (Raise e, t) => (Raise e, t)
  end.

(** ** The program *)

Section Program.

(** Modelled from the spec: [chromaterm.colors.get_code], whose module is
    not among the sources.  It maps a colour name to an escape sequence, or
    to a sentinel when the name cannot be resolved. *)
Variable get_code : pystr → option pystr.

(** [regex.compile] on a pattern text: [None] when the library raises
    [regex.error]. *)
Variable re_compile : pystr → option Pattern.

(** [yaml.safe_load]: [None] when it raises [yaml.YAMLError]. *)
Variable safe_load : pystr → option pyval.

(** [ArgumentParser.parse_args] for the one option [args_init] declares:
    [None] when the parser exits the process (usage error, [--help]),
    otherwise the value given for [--config], if any. *)
Variable argparse_config : list pystr → option (option pystr).

(** The first argument of [regex.compile] and [regex.sub] must be text. *)
Definition re_compile_value (regex : pyval) : result Pattern :=
  match regex with
  | PStr p =>
      match re_compile p with
      | Some c => Ok c
      | None => Raise RegexError
      end
  | _ => Raise TypeError
  end.

(** The text [regex.sub] builds from the matches [ms] found at or after
    [pos]: the text between matches is copied, each match is replaced by
    what the function returns for it. *)
Fixpoint sub_from (f : repl_func) (text : pystr) (pos : nat)
    (ms : list Match) : pystr :=
  match ms with
  | [] => drop pos text
  | m :: ms' =>
      slice pos (m_start m) text ++ call_repl f (group0 text m)
        ++ sub_from f text (m_end m) ms'
  end.

Definition re_sub (regex : pyval) (f : repl_func) (text : pystr)
    : result pystr :=
  p ← re_compile_value regex;
  Ok (sub_from f text 0 (finditer p text)).

(** [if not color_code]: the sentinel or an empty code. *)
Definition resolve (name : pystr) : option pystr :=
  match get_code name with
  | Some (c :: code) => Some (c :: code)
  | _ => None
  end.

(** The loop over [[x for x in color if x <= group_count]].  [parse_rule],
    the only caller, passes a dict whose keys are [int] instances and whose
    values are [str] ([color[group]] is the value stored with the key being
    visited); the two other match arms are never taken from there. *)
Fixpoint build_actions (group_count : nat) (items : list (pyval * pyval))
    (actions : list (Z * pystr)) : result (option (list (Z * pystr))) :=
  match items with
  | [] => Ok (Some actions)
  | (key, value) :: rest =>
      match int_value key with
      | None => Raise TypeError
      | Some group =>
          if (group <=? Z.of_nat group_count)%Z then
            match value with
            | PStr name =>
                match resolve name with
                | None => Ok None            (* 'invalid color code' *)
                | Some color_code =>
                    build_actions group_count rest
                      (actions_set group color_code actions)
                end
            | _ => Raise TypeError
            end
          else build_actions group_count rest actions
      end
  end.

Definition get_highlight_repl_func (cfg : config) (regex color : pyval)
    : result rule_outcome :=
  match color with
  | PStr name =>                                    (* Simple action *)
      match resolve name with
      | None => Ok (ErrorString InvalidColorCode)
      | Some color_code =>
          Ok (Compiled {| rule_regex := regex;
                          rule_repl_func :=
                            SimpleFunc color_code (reset_string cfg) |})
      end
  | PDict items =>                                  (* Complex action *)
      p ← re_compile_value regex;
      built ← build_actions (groups p) items [];
      match built with
      | None => Ok (ErrorString InvalidColorCode)
      | Some actions =>
          Ok (Compiled {| rule_regex := regex;
                          rule_repl_func := ComplexFunc actions |})
      end
  | _ => Raise TypeError           (* not a colour [parse_rule] passes *)
  end.

Fixpoint highlight (rules : list compiled_rule) (line : pystr)
    : result pystr :=
  match rules with
  | [] => Ok line
  | rule :: rest =>
      line' ← re_sub (rule_regex rule) (rule_repl_func rule) line;
      highlight rest line'
  end.

(** The loop of [parse_rule] over the sub-actions of a complex action:
    the first error it returns, if any. *)
Fixpoint check_sub_actions (items : list (pyval * pyval))
    : option rule_error :=
  match items with
  | [] => None
  | (sub_action, value) :: rest =>
      if negb (isinstance_int sub_action)
      then Some (SubActionNotInteger sub_action)
      else if negb (isinstance_str value)
      then Some (SubActionValueNotString sub_action)
      else check_sub_actions rest
  end.

Definition parse_rule (rule : pyval) (cfg : config) : result rule_outcome :=
  fields ← get_method rule;
  let regex := dict_get (str "regex") fields in
  if negb (truthy regex) then Ok (ErrorString RegexNotFound)
  else if negb (isinstance_str regex) && negb (isinstance_int regex)
  then Ok (ErrorString RegexNotStringOrInteger)
  else
    let color := dict_get (str "color") fields in
    if negb (truthy color) then Ok (ErrorString ColorNotFound)
    else if negb (isinstance_str color) && negb (isinstance_dict color)
    then Ok (ErrorString ColorNotStringOrDictionary)
    else
      match
        match color with
        | PDict items => check_sub_actions items
        | _ => None
        end
      with
      | Some e => Ok (ErrorString e)
      | None => get_highlight_repl_func cfg regex color
      end.

(** The loop of [parse_config] over the rules. *)
Fixpoint parse_rules (rs : list pyval) (cfg : config) : io config :=
  match rs with
  | [] => ret cfg
  | rule :: rest =>
      parsed_rule ← lift (parse_rule rule cfg);
      cfg' ← match parsed_rule with
              | Compiled r =>
                  ret {| rules := rules cfg ++ [r];
                         reset_string := reset_string cfg |}
              | ErrorString e =>
                  _ ← emit (Eprint (RuleErrorOn rule e)); ret cfg
              end;
      parse_rules rest cfg'
  end.

Definition initial_config : config :=
  {| rules := []; reset_string := default_reset_string |}.

Definition parse_config (data : pystr) : io config :=
  match safe_load data with
  | None => _ ← emit (Eprint ParseError); ret initial_config
  | Some load =>
      fields ← lift (get_method load);
      let rules := dict_get_default (str "rules") (PList []) fields in
      let rules := match rules with PList l => l | _ => [] end in
      parse_rules rules initial_config
  end.

(** [for line in lines: print(highlight(rules, line), end='')]. *)
Fixpoint print_lines (rules : list compiled_rule) (lines : list pystr)
    : io unit :=
  match lines with
  | [] => ret tt
  | line :: rest =>
      out ← lift (highlight rules line);
      _ ← emit (Print out false);
      print_lines rules rest
  end.

(** [ready] is what [read_ready(WAIT_FOR_NEW_LINE)] answers. *)
Definition process_buffer (cfg : config) (buffer : pystr) (more : bool)
    (ready : bool) : io pystr :=
  let lines := splitlines buffer in
  match lines with
  | [] => ret []
  | _ =>
      _ ← print_lines (rules cfg) (all_but_last lines);
      if ready && more then ret (last_line lines)
      else
        out ← lift (highlight (rules cfg) (last_line lines));
        _ ← emit (Print out true);
        ret []
  end.

(** The namespace [parse_args] returns has one attribute per declared
    argument. *)
Definition args_init (argv : list pystr) : result (gmap string pyval) :=
  match argparse_config argv with
  | None => Raise SystemExit
  | Some given =>
      Ok {[ "config"%string := PStr (default (str ".chromatermrc") given) ]}
  end.

Definition getattr (ns : gmap string pyval) (name : string) : result pyval :=
  match ns !! name with
  | Some v => Ok v
  | None => Raise AttributeError
  end.

(** The read loop of [main].  Standard input is the list of chunks still to
    come, each with the answer the readiness probe gives after it; once the
    list is used up the source is closed, every read is empty and the probe
    answers [True].  [None] is returned when [fuel] iterations did not
    reach the [break]. *)
Fixpoint read_loop (fuel : nat) (cfg : config) (buffer : pystr)
    (stdin : list (pystr * bool)) : io (option unit) :=
  match fuel with
  | O => ret None
  | S fuel' =>
      let '(data, ready, stdin') :=
        match stdin with
        | [] => ([], true, [])
        | (d, r) :: rest => (d, r, rest)
        end in
      _ ← emit (ReadStdin data);
      let buffer := buffer ++ data in
      match buffer with
      | [] => ret (Some tt)
      | _ =>
          buffer' ← process_buffer cfg buffer
                      (match data with [] => false | _ => true end) ready;
          read_loop fuel' cfg buffer' stdin'
      end
  end.

Definition main (argv : list pystr) (files : pystr → option pystr)
    (stdin : list (pystr * bool)) (fuel : nat) : io (option unit) :=
  args ← lift (args_init argv);
  let buffer : pystr := [] in
  demo ← lift (getattr args "demo");
  if truthy demo then _ ← emit ColorsDemo; ret (Some tt)
  else
    path ← lift (getattr args "config");
    match path with
    | PStr p =>
        match files p with
        | None => throw OSError
        | Some file =>
            _ ← emit (OpenFile p);
            cfg ← parse_config file;
            read_loop fuel cfg buffer stdin
        end
    | _ => throw TypeError
    end.

End Program.

(** ** Stand-ins for the libraries, to run the program on examples *)

Module Sample.

(** A two-entry colour table. *)
Definition red : pystr := ESC :: str "[31m".
Definition blue : pystr := ESC :: str "[34m".

Definition get_code (name : pystr) : option pystr :=
  if decide (name = str "red") then Some red
  else if decide (name = str "blue") then Some blue
  else None.

(** A matcher for the patterns made of ordinary characters, alone or inside
    one pair of parentheses; other patterns are not compiled. *)
Definition is_meta (c : N) : bool :=
  bool_decide (c ∈ str ".^$*+?{}[]\|()").

Fixpoint is_prefix (p text : pystr) : bool :=
  match p, text with
  | [], _ => true
  | a :: p', b :: text' => (a =? b)%N && is_prefix p' text'
  | _ :: _, [] => false
  end.

(** Leftmost non-overlapping occurrences of [p] from position [pos] on;
    [skip] characters still belong to the occurrence found last. *)
Fixpoint scan (p text : pystr) (pos skip : nat) : list (nat * nat) :=
  match text with
  | [] =>
      match skip, p with
      | O, [] => [(pos, pos)]
      | _, _ => []
      end
  | _ :: rest =>
      match skip with
      | S k => scan p rest (S pos) k
      | O =>
          if is_prefix p text
          then (pos, pos + length p) :: scan p rest (S pos) (length p - 1)
          else scan p rest (S pos) 0
      end
  end.

Definition literal (p : pystr) : Pattern :=
  {| groups := 0;
     finditer := λ text,
       map (λ '(i, j), {| m_start := i; m_end := j; m_groups := [] |})
           (scan p text 0 0) |}.

Definition grouped (p : pystr) : Pattern :=
  {| groups := 1;
     finditer := λ text,
       map (λ '(i, j),
              {| m_start := i; m_end := j; m_groups := [Some (i, j)] |})
           (scan p text 0 0) |}.

Definition re_compile (p : pystr) : option Pattern :=
  if forallb (λ c, negb (is_meta c)) p then Some (literal p)
  else match p with
       | 40%N :: q =>
           match reverse q with
           | 41%N :: body =>
               if forallb (λ c, negb (is_meta c)) body
               then Some (grouped (reverse body))
               else None
           | _ => None
           end
       | _ => None
       end.

(** A few documents and what [yaml.safe_load] makes of them. *)
Definition key (k : string) : pyval := PStr (str k).

Definition three_rules_text : pystr :=
  str "rules:" ++ [LF] ++
  str "- regex: a" ++ [LF] ++ str "  color: red" ++ [LF] ++
  str "- regex: b" ++ [LF] ++
  str "- regex: c" ++ [LF] ++ str "  color: blue" ++ [LF].

Definition rule1 : pyval :=
  PDict [(key "regex", key "a"); (key "color", key "red")].
Definition rule2 : pyval := PDict [(key "regex", key "b")].
Definition rule3 : pyval :=
  PDict [(key "regex", key "c"); (key "color", key "blue")].

Definition safe_load (data : pystr) : option pyval :=
  if decide (data = []) then Some PNone
  else if decide (data = str "42") then Some (PInt 42)
  else if decide (data = str "- a") then Some (PList [key "a"])
  else if decide (data = str "rules: 5")
  then Some (PDict [(key "rules", PInt 5)])
  else if decide (data = three_rules_text)
  then Some (PDict [(key "rules", PList [rule1; rule2; rule3])])
  else None.

(** A command-line reader for [--config FILE] and [--config=FILE]. *)
Fixpoint argparse_from (given : option pystr) (argv : list pystr)
    : option (option pystr) :=
  match argv with
  | [] => Some given
  | flag :: rest =>
      if decide (flag = str "--config") then
        match rest with
        | value :: rest' =>
            match value with
            | 45%N :: _ => None
            | _ => argparse_from (Some value) rest'
            end
        | [] => None
        end
      else if is_prefix (str "--config=") flag
      then argparse_from (Some (drop 9 flag)) rest
      else None
  end.

Definition argparse_config (argv : list pystr) : option (option pystr) :=
  argparse_from None argv.

Definition files (path : pystr) : option pystr :=
  if decide (path = str ".chromatermrc") then Some three_rules_text
  else None.

(** Rule records and buffers used in the examples. *)
Definition group_rule : pyval :=
  PDict [(key "regex", key "(b)"); (key "color", PDict [(PInt 1, key "red")])].

Definition integer_rule : pyval :=
  PDict [(key "regex", PInt 5); (key "color", key "red")].

Definition integer_group_rule : pyval :=
  PDict [(key "regex", PInt 5); (key "color", PDict [(PInt 1, key "red")])].

Definition negative_key_rule : pyval :=
  PDict [(key "regex", key "a");
         (key "color", PDict [(PInt (-1), key "red")])].

Definition mixed_sub_actions : list (pyval * pyval) :=
  [(PInt 1, key "red"); (key "x", key "blue")].

Definition mixed_rule_fields : list (pyval * pyval) :=
  [(key "regex", key "a"); (key "color", PDict mixed_sub_actions)].

Definition red_a : compiled_rule :=
  {| rule_regex := key "a";
     rule_repl_func := SimpleFunc red default_reset_string |}.

Definition red_a_config : config :=
  {| rules := [red_a]; reset_string := default_reset_string |}.

Definition one_line : pystr := str "ab" ++ [LF].
Definition two_lines : pystr := str "ab" ++ [LF] ++ str "cd".

End Sample.

(** ** What the specification calls a complete line and a trailing fragment *)





(** A segment that ends in one of the line boundaries. *)
Definition line_terminated (l : pystr) : Prop :=
  ∃ body c, l = body ++ [c] ∧ is_linebreak c = true.

(** The events of printing [outs] one after the other, without flushing. *)
Definition prints (outs : list pystr) : list event :=
  map (λ o, Print o false) outs.


(** No line boundary is left inside a segment: a boundary is its last
    character, or the carriage return of a final CR LF pair. *)
Definition no_inner_break (l : pystr) : Prop :=
  ∀ pre c post, l = pre ++ c :: post → is_linebreak c = true →
    post = [] ∨ (c = CR ∧ post = [LF]).

(** The search for the pattern of rule [r] in [line] finds nothing. *)
Definition no_match (re_compile : pystr → option Pattern)
    (r : compiled_rule) (line : pystr) : Prop :=
  ∃ p pat, rule_regex r = PStr p ∧ re_compile p = Some pat ∧
           finditer pat line = [].

(** A sub-action the validation loop of [parse_rule] lets through. *)
Definition sub_action_ok (item : pyval * pyval) : bool :=
  isinstance_int item.1 && isinstance_str item.2.

(** A sub-action as the specification wants it: a non-negative integer key
    and a text value. *)
Definition spec_sub_action_ok (item : pyval * pyval) : bool :=
  match item with
  | (PInt z, PStr _) => (0 <=? z)%Z
  | _ => false
  end.

(** The outcome is one of the two sub-action messages, naming key [k]. *)
Definition sub_action_error (o : result rule_outcome) (k : pyval) : Prop :=
  o = Ok (ErrorString (SubActionNotInteger k)) ∨
  o = Ok (ErrorString (SubActionValueNotString k)).

(** Sub-action validation as the specification words it: the rule is refused
    with a sub-action message as soon as some entry is not a non-negative
    integer key with a text value, and is not refused that way otherwise. *)
Definition spec_sub_action_validation (o : result rule_outcome)
    (items : list (pyval * pyval)) : Prop :=
  (Exists (λ item, spec_sub_action_ok item = false) items →
     ∃ k, sub_action_error o k) ∧
  (Forall (λ item, spec_sub_action_ok item = true) items →
     ∀ k, ¬ sub_action_error o k).


(** The diagnostic [parse_config] prints for a rule record, if any. *)
Definition rule_error_report (get_code : pystr → option pystr)
    (re_compile : pystr → option Pattern) (cfg : config) (rule : pyval)
    : option event :=
  match parse_rule get_code re_compile rule cfg with
  | Ok (ErrorString e) => Some (Eprint (RuleErrorOn rule e))
  | _ => None
  end.

(** ** Notions used to state further properties of the code *)

(** The matches [ms] are spans met in order from position [pos] on: each one
    starts at or after the end of the one before and does not end before it
    starts. *)
Fixpoint ordered_spans (pos : nat) (ms : list Match) : Prop :=
  match ms with
  | [] => True
  | m :: ms' =>
      pos ≤ m_start m ∧ m_start m ≤ m_end m ∧ ordered_spans (m_end m) ms'
  end.

(** The sub-action is kept by the test [x <= group_count]. *)
Definition within_groups (group_count : nat) (item : pyval * pyval) : bool :=
  match int_value item.1 with
  | Some group => (group <=? Z.of_nat group_count)%Z
  | None => true
  end.

(** What holds of a closure built for a pattern: a simple one has a
    non-empty colour code and the reset string [reset]; a complex one belongs
    to a pattern that compiles, and files non-empty codes under group numbers
    no larger than the pattern's group count. *)
Definition closure_ok (re_compile : pystr → option Pattern) (reset : pystr)
    (r : compiled_rule) : Prop :=
  match rule_repl_func r with
  | SimpleFunc color_code reset_string =>
      color_code ≠ [] ∧ reset_string = reset
  | ComplexFunc actions =>
      ∃ pat, re_compile_value re_compile (rule_regex r) = Ok pat ∧
             Forall (λ a, (a.1 ≤ Z.of_nat (groups pat))%Z ∧ a.2 ≠ []) actions
  end.

(** The text written to standard output by a run, in order. *)
Fixpoint printed (trace : list event) : pystr :=
  match trace with
  | [] => []
  | Print text _ :: rest => text ++ printed rest
  | _ :: rest => printed rest
  end.

(** The text read from standard input by a run, in order. *)
Fixpoint read_data (trace : list event) : pystr :=
  match trace with
  | [] => []
  | ReadStdin data :: rest => data ++ read_data rest
  | _ :: rest => read_data rest
  end.

(** * Properties *)

(** ** Segmentation *)

Lemma splitlines_nil (s : pystr) : splitlines s = [] ↔ s = [].
Proof.
  split; [|intros ->; reflexivity].
  destruct s as [|c rest]; [done|]. simpl.
  destruct (ends_line c rest); [done|].
  destruct (splitlines rest); done.
Qed.

Lemma concat_splitlines (s : pystr) : concat (splitlines s) = s.
Proof.
  induction s as [|c rest IH]; [done|]. simpl.
  destruct (ends_line c rest); simpl; [by rewrite IH|].
  destruct (splitlines rest) as [|l ls]; simpl in *; [by rewrite <- IH|].
  by rewrite <- IH.
Qed.

Lemma all_but_last_cons (x y : pystr) (ls : list pystr) :
  all_but_last (x :: y :: ls) = x :: all_but_last (y :: ls).
Proof. unfold all_but_last. simpl. by rewrite Nat.sub_0_r. Qed.

Lemma last_line_cons (x y : pystr) (ls : list pystr) :
  last_line (x :: y :: ls) = last_line (y :: ls).
Proof. reflexivity. Qed.

Lemma lines_split (lines : list pystr) :
  lines ≠ [] → all_but_last lines ++ [last_line lines] = lines.
Proof.
  induction lines as [|x [|y ls] IH]; intros Hne; [done|done|].
  rewrite all_but_last_cons, last_line_cons. simpl. f_equal.
  apply IH. done.
Qed.

Lemma line_terminated_cons (c : N) (l : pystr) :
  line_terminated l → line_terminated (c :: l).
Proof. intros (body & d & -> & Hd). by exists (c :: body), d. Qed.

Lemma splitlines_terminated (s : pystr) :
  Forall line_terminated (all_but_last (splitlines s)).
Proof.
  induction s as [|c rest IH]; [by constructor|]. simpl.
  destruct (ends_line c rest) eqn:He.
  - destruct (splitlines rest) as [|y ls]; [by constructor|].
    rewrite all_but_last_cons. constructor; [|done].
    exists [], c. split; [done|].
    unfold ends_line in He. by apply andb_true_iff in He as [? _].
  - destruct (splitlines rest) as [|l [|y ls]]; [by constructor..|].
    rewrite all_but_last_cons in *.
    inversion IH; subst. constructor; [|done].
    by apply line_terminated_cons.
Qed.

Lemma splitlines_no_inner_break (s : pystr) :
  Forall no_inner_break (splitlines s).
Proof.
  induction s as [|c rest IH]; [by constructor|]. simpl.
  destruct (ends_line c rest) eqn:He.
  - constructor; [|done].
    intros [|p [|q pre]] d post Heq Hd; simplify_eq/=. by left.
  - assert (Hc : is_linebreak c = true →
                 c = CR ∧ ∃ rest', rest = LF :: rest').
    { intros Hb. unfold ends_line in He. rewrite Hb in He. simpl in He.
      apply negb_false_iff, andb_true_iff in He as [H1 H2].
      apply N.eqb_eq in H1. split; [done|].
      destruct rest as [|d rest']; [done|]. apply N.eqb_eq in H2.
      subst. by eexists. }
    destruct (splitlines rest) as [|l ls] eqn:Hs.
    + apply splitlines_nil in Hs as ->. constructor; [|done].
      intros [|p [|q pre]] d post Heq Hd; simplify_eq/=. by left.
    + inversion IH as [|? ? Hl Hls]; subst. constructor; [|done].
      intros [|p pre] d post Heq Hd; simplify_eq/=.
      * destruct (Hc Hd) as [-> [rest' ->]]. right. split; [done|].
        simpl in Hs. destruct (ends_line LF rest') eqn:E; [by simplify_eq|].
        by destruct rest'.
      * destruct (Hl pre d post eq_refl Hd) as [->|[-> ->]];
          [by left|by right].
Qed.

(** ** The stream driver *)

Section Driver.

Variable re_compile : pystr → option Pattern.

Lemma highlight_outputs (rules : list compiled_rule) (lines : list pystr) :
  Forall (λ line, returns (highlight re_compile rules line)) lines →
  ∃ outs, Forall2 (λ l o, highlight re_compile rules l = Ok o) lines outs.
Proof.
  induction 1 as [|line lines [out Hout] _ [outs IH]].
  - by exists [].
  - exists (out :: outs). by constructor.
Qed.

Lemma print_lines_outputs (rules : list compiled_rule)
    (lines outs : list pystr) :
  Forall2 (λ l o, highlight re_compile rules l = Ok o) lines outs →
  print_lines re_compile rules lines = (Ok (), prints outs).
Proof.
  induction 1 as [|line out lines outs Hout _ IH]; [done|].
  simpl. rewrite Hout. unfold mbind, io_bind, lift, emit. simpl.
  unfold mbind, io_bind in IH. by rewrite IH.
Qed.

(** One pass on a buffer whose segmentation is [segs ++ [seg]]. *)
Lemma process_buffer_segments (cfg : config) (buffer : pystr)
    (more ready : bool) (segs outs : list pystr) (seg : pystr) :
  splitlines buffer = segs ++ [seg] →
  Forall2 (λ l o, highlight re_compile (rules cfg) l = Ok o) segs outs →
  process_buffer re_compile cfg buffer more ready
  = if ready && more then (Ok seg, prints outs)
    else match highlight re_compile (rules cfg) seg with
         | Ok out => (Ok [], prints outs ++ [Print out true])
         | Raise e => (Raise e, prints outs)
         end.
Proof.
  intros Hs Hout. unfold process_buffer. rewrite Hs.
  assert (Hne : segs ++ [seg] ≠ []) by (by destruct segs).
  pose proof (lines_split _ Hne) as Hsplit.
  apply app_inj_tail in Hsplit as [Ha Hl]. rewrite Ha, Hl.
  destruct (segs ++ [seg]) as [|x xs]; [done|].
  rewrite (print_lines_outputs _ _ _ Hout).
  unfold mbind, io_bind, lift, emit, ret. simpl.
  destruct (ready && more); simpl; [by rewrite app_nil_r|].
  destruct (highlight re_compile (rules cfg) seg); simpl;
    by rewrite ?app_nil_r.
Qed.

Lemma splitlines_snoc (buffer : pystr) :
  buffer ≠ [] →
  ∃ segs seg, splitlines buffer = segs ++ [seg] ∧
              concat segs ++ seg = buffer ∧
              Forall line_terminated segs.
Proof.
  intros Hne.
  assert (Hl : splitlines buffer ≠ []) by (by rewrite splitlines_nil).
  exists (all_but_last (splitlines buffer)), (last_line (splitlines buffer)).
  split; [by rewrite lines_split|]. split; [|apply splitlines_terminated].
  rewrite <- (concat_splitlines buffer) at 3.
  rewrite <- (lines_split _ Hl) at 3.
  rewrite concat_app. simpl. by rewrite app_nil_r.
Qed.


(** C6: once the source has closed ([more] is false), a non-empty buffer is
    highlighted and printed whole, segment by segment, the last print
    flushing the output, and the empty text is returned; an empty buffer
    prints nothing and returns the empty text. *)
Theorem process_buffer_source_closed (cfg : config) (buffer : pystr)
    (ready : bool) :
  Forall (λ line, returns (highlight re_compile (rules cfg) line))
         (splitlines buffer) →
  (buffer = [] →
     process_buffer re_compile cfg buffer false ready = (Ok [], [])) ∧
  (buffer ≠ [] →
     ∃ segs seg outs out,
       concat (segs ++ [seg]) = buffer ∧
       Forall2 (λ l o, highlight re_compile (rules cfg) l = Ok o)
               (segs ++ [seg]) (outs ++ [out]) ∧
       process_buffer re_compile cfg buffer false ready
         = (Ok [], prints outs ++ [Print out true])).
Proof.
  intros Hret. split; [by intros ->|]. intros Hne.
  destruct (splitlines_snoc buffer Hne) as (segs & seg & Hs & Hcat & _).
  rewrite Hs in Hret. apply Forall_app in Hret as [Hsegs Hseg].
  destruct (highlight_outputs _ _ Hsegs) as [outs Houts].
  apply Forall_singleton in Hseg as [out Hout].
  exists segs, seg, outs, out. split; [|split].
  - rewrite concat_app. simpl. by rewrite app_nil_r.
  - apply Forall2_app; [done|]. by constructor.
  - rewrite (process_buffer_segments cfg buffer false ready segs outs seg
               Hs Houts).
    by rewrite andb_false_r, Hout.
Qed.

End Driver.

(** ** The rule compiler and the highlighter *)

Section Rules.

Variable get_code : pystr → option pystr.
Variable re_compile : pystr → option Pattern.
Variable safe_load : pystr → option pyval.

Lemma call_repl_complex (actions : list (Z * pystr)) (g0 : pystr) :
  call_repl (ComplexFunc actions) g0 = g0.
Proof. unfold call_repl. by destruct actions. Qed.

Lemma re_sub_non_text (regex : pyval) (f : repl_func) (line : pystr) :
  isinstance_str regex = false →
  re_sub re_compile regex f line = Raise TypeError.
Proof. by destruct regex. Qed.

Lemma highlight_non_text_pattern (r : compiled_rule)
    (rules : list compiled_rule) (line : pystr) :
  isinstance_str (rule_regex r) = false →
  highlight re_compile (r :: rules) line = Raise TypeError.
Proof. intros H. simpl. by rewrite re_sub_non_text. Qed.

Lemma resolve_some (name code : pystr) :
  get_code name = Some code → code ≠ [] → resolve get_code name = Some code.
Proof. intros H Hne. unfold resolve. rewrite H. by destruct code. Qed.

(** C10: a line in which no rule's pattern finds a match is returned
    unchanged. *)
Theorem highlight_no_match (rules : list compiled_rule) (line : pystr) :
  Forall (λ r, no_match re_compile r line) rules →
  highlight re_compile rules line = Ok line.
Proof.
  induction 1 as [|r rules (p & pat & Hp & Hc & Hm) _ IH]; [done|].
  simpl. unfold re_sub, re_compile_value. rewrite Hp, Hc. simpl.
  rewrite Hm. simpl. exact IH.
Qed.

Lemma slice_middle (pre m post : pystr) :
  slice (length pre) (length pre + length m) (pre ++ m ++ post) = m.
Proof.
  unfold slice. rewrite drop_app_length.
  replace (length pre + length m - length pre) with (length m) by lia.
  apply take_app_length.
Qed.

(** C8: one simple-action rule with pattern [P] and colour [C] resolving to
    code [X]; in a line [pre ++ m ++ post] where the pattern matches [m] and
    nothing else, the match becomes [X ++ m ++ reset] and the text around it
    is kept. *)
Theorem highlight_single_simple_rule (cfg : config) (P C X : pystr)
    (pat : Pattern) (pre m post : pystr) (gs : list (option (nat * nat))) :
  get_code C = Some X → X ≠ [] →
  re_compile P = Some pat →
  finditer pat (pre ++ m ++ post)
    = [{| m_start := length pre; m_end := length pre + length m;
          m_groups := gs |}] →
  ∃ r, get_highlight_repl_func get_code re_compile cfg (PStr P) (PStr C)
         = Ok (Compiled r) ∧
       highlight re_compile [r] (pre ++ m ++ post)
         = Ok (pre ++ X ++ m ++ reset_string cfg ++ post).
Proof.
  intros HX Hne HP Hm. eexists. split.
  - simpl. by rewrite (resolve_some _ _ HX Hne).
  - simpl. unfold re_sub, re_compile_value. simpl. rewrite HP. simpl.
    rewrite Hm. simpl. unfold group0. simpl. rewrite slice_middle.
    unfold slice. rewrite Nat.sub_0_r, drop_0, take_app_length.
    replace (drop (length pre + length m) (pre ++ m ++ post)) with post.
    + by rewrite <- !app_assoc.
    + rewrite app_assoc, <- length_app. by rewrite drop_app_length.
Qed.

End Rules.

(** ** Rule validation and the configuration *)

Section Configuration.

Variable get_code : pystr → option pystr.
Variable re_compile : pystr → option Pattern.
Variable safe_load : pystr → option pyval.

(** The validation loop stops at the first sub-action it does not accept. *)
Lemma check_sub_actions_first (good rest : list (pyval * pyval))
    (k v : pyval) :
  Forall (λ item, sub_action_ok item = true) good →
  sub_action_ok (k, v) = false →
  check_sub_actions (good ++ (k, v) :: rest)
  = Some (if isinstance_int k then SubActionValueNotString k
          else SubActionNotInteger k).
Proof.
  intros Hgood Hbad. induction Hgood as [|[k' v'] good Hok _ IH]; simpl.
  - unfold sub_action_ok in Hbad. simpl in Hbad.
    destruct (isinstance_int k); simpl in *; [by rewrite Hbad|done].
  - unfold sub_action_ok in Hok. simpl in Hok.
    apply andb_true_iff in Hok as [-> ->]. simpl. exact IH.
Qed.

Lemma check_sub_actions_none (items : list (pyval * pyval)) :
  Forall (λ item, sub_action_ok item = true) items →
  check_sub_actions items = None.
Proof.
  induction 1 as [|[k v] items Hok _ IH]; [done|]. simpl.
  unfold sub_action_ok in Hok. simpl in Hok.
  by apply andb_true_iff in Hok as [-> ->].
Qed.

(** A list with an entry that is not accepted has a first such entry. *)
Lemma first_rejected (items : list (pyval * pyval)) :
  ¬ Forall (λ item, sub_action_ok item = true) items →
  ∃ good k v rest,
    items = good ++ (k, v) :: rest ∧
    Forall (λ item, sub_action_ok item = true) good ∧
    sub_action_ok (k, v) = false.
Proof.
  induction items as [|[k v] items IH]; intros Hnot.
  - destruct Hnot. constructor.
  - destruct (sub_action_ok (k, v)) eqn:Hok.
    + destruct IH as (good & k' & v' & rest & -> & Hgood & Hbad).
      { intros Hall. apply Hnot. by constructor. }
      exists ((k, v) :: good), k', v', rest. split; [done|].
      split; [by constructor|done].
    + exists [], k, v, items. split; [done|]. split; [constructor|done].
Qed.

(** Rule compilation itself never answers with a sub-action message. *)
Lemma get_highlight_repl_func_no_sub_action (cfg : config)
    (regex color k : pyval) :
  ¬ sub_action_error
      (get_highlight_repl_func get_code re_compile cfg regex color) k.
Proof.
  unfold get_highlight_repl_func, sub_action_error.
  destruct color; try (intros [?|?]; discriminate).
  - destruct (resolve get_code s); intros [?|?]; discriminate.
  - destruct (re_compile_value re_compile regex) as [p|e]; simpl;
      [|intros [?|?]; discriminate].
    destruct (build_actions get_code (groups p) items []) as [[a|]|e]; simpl;
      intros [?|?]; discriminate.
Qed.

(** C7, as the code has it: for a rule record whose pattern has passed its
    checks and whose colour is a mapping, [parse_rule] answers with a
    sub-action message naming the first offending key as soon as some key is
    not an [int] instance or some value is not text, and never answers with
    such a message when every key is an [int] instance (of either sign) and
    every value is text. *)
Theorem parse_rule_sub_actions (cfg : config) (fields : list (pyval * pyval))
    (regex : pyval) (items : list (pyval * pyval)) :
  dict_get (str "regex") fields = regex →
  truthy regex = true →
  isinstance_str regex || isinstance_int regex = true →
  dict_get (str "color") fields = PDict items →
  (Forall (λ item, sub_action_ok item = true) items →
     ∀ k, ¬ sub_action_error
              (parse_rule get_code re_compile (PDict fields) cfg) k) ∧
  (¬ Forall (λ item, sub_action_ok item = true) items →
     ∃ good k v rest,
       items = good ++ (k, v) :: rest ∧
       Forall (λ item, sub_action_ok item = true) good ∧
       sub_action_ok (k, v) = false ∧
       parse_rule get_code re_compile (PDict fields) cfg
       = Ok (ErrorString (if isinstance_int k then SubActionValueNotString k
                          else SubActionNotInteger k))).
Proof.
  intros Hregex Htruthy Htype Hcolor.
  assert (Hstep : parse_rule get_code re_compile (PDict fields) cfg
    = if negb (truthy (PDict items)) then Ok (ErrorString ColorNotFound)
      else match check_sub_actions items with
           | Some e => Ok (ErrorString e)
           | None => get_highlight_repl_func get_code re_compile cfg regex
                       (PDict items)
           end).
  { unfold parse_rule. simpl. rewrite Hregex, Htruthy, Hcolor. simpl.
    apply orb_true_iff in Htype.
    destruct Htype as [-> | ->]; simpl; rewrite ?andb_false_r; simpl;
      by destruct items. }
  split.
  - intros Hall k. rewrite Hstep.
    destruct (negb (truthy (PDict items))); [intros [?|?]; discriminate|].
    rewrite (check_sub_actions_none _ Hall).
    apply get_highlight_repl_func_no_sub_action.
  - intros Hnot.
    destruct (first_rejected items Hnot)
      as (good & k & v & rest & -> & Hgood & Hbad).
    exists good, k, v, rest. repeat split; try done.
    rewrite Hstep, (check_sub_actions_first _ _ _ _ Hgood Hbad).
    by destruct good.
Qed.

(** [parse_rule] reads the configuration only for its reset string. *)
Lemma parse_rule_reset (rule : pyval) (cfg cfg' : config) :
  reset_string cfg = reset_string cfg' →
  parse_rule get_code re_compile rule cfg
  = parse_rule get_code re_compile rule cfg'.
Proof.
  intros Heq. unfold parse_rule, get_highlight_repl_func. by rewrite Heq.
Qed.




(** A document that is not a mapping has no [get] method. *)
Lemma parse_config_not_mapping (data : pystr) (load : pyval) :
  safe_load data = Some load →
  isinstance_dict load = false →
  parse_config get_code re_compile safe_load data = (Raise AttributeError, []).
Proof.
  intros Hload Hd. unfold parse_config. rewrite Hload.
  by destruct load.
Qed.

(** A document the YAML reader refuses gives the initial configuration. *)
Lemma parse_config_yaml_error (data : pystr) :
  safe_load data = None →
  parse_config get_code re_compile safe_load data
  = (Ok initial_config, [Eprint ParseError]).
Proof. intros Hload. unfold parse_config. by rewrite Hload. Qed.

End Configuration.

(** ** The entry point *)

Section EntryPoint.

Variable get_code : pystr → option pystr.
Variable re_compile : pystr → option Pattern.
Variable safe_load : pystr → option pyval.
Variable argparse_config : list pystr → option (option pystr).

(** The namespace has the attribute [config] and no other. *)
Lemma args_init_attributes (argv : list pystr) (ns : gmap string pyval)
    (name : string) :
  args_init argparse_config argv = Ok ns →
  is_Some (ns !! name) ↔ name = "config"%string.
Proof.
  unfold args_init. destruct (argparse_config argv) as [given|]; [|done].
  intros [= <-]. rewrite lookup_singleton_is_Some. naive_solver.
Qed.

(** C2: whenever the parser accepts the command line, the namespace has no
    [demo] attribute and [main] raises [AttributeError] at [args.demo],
    before any file is opened and before anything is read or printed. *)
Theorem main_raises_attribute_error (argv : list pystr)
    (ns : gmap string pyval) (files : pystr → option pystr)
    (stdin : list (pystr * bool)) (fuel : nat) :
  args_init argparse_config argv = Ok ns →
  ns !! "demo"%string = None ∧
  main get_code re_compile safe_load argparse_config argv files stdin fuel
  = (Raise AttributeError, []).
Proof.
  intros Hargs.
  assert (Hdemo : ns !! "demo"%string = None).
  { apply eq_None_not_Some. rewrite (args_init_attributes argv ns _ Hargs).
    discriminate. }
  split; [done|]. unfold main. rewrite Hargs.
  unfold mbind, io_bind, lift, getattr. simpl. by rewrite Hdemo.
Qed.

End EntryPoint.

(** ** The program on concrete inputs *)

(** C1: a complex action on pattern [(b)] with group 1 coloured red compiles
    to a rule that holds the red code for group 1, the pattern matches [b] in
    [abc] with group 1 spanning it, and the highlighted line is still [abc]:
    the group's span is not wrapped in its colour. *)
Theorem complex_action_returns_bare_match :
  parse_rule Sample.get_code Sample.re_compile Sample.group_rule initial_config
  = Ok (Compiled {| rule_regex := Sample.key "(b)";
                    rule_repl_func := ComplexFunc [(1%Z, Sample.red)] |}) ∧
  finditer (Sample.grouped (str "b")) (str "abc")
  = [{| m_start := 1; m_end := 2; m_groups := [Some (1, 2)] |}] ∧
  Sample.re_compile (str "(b)") = Some (Sample.grouped (str "b")) ∧
  highlight Sample.re_compile
    [{| rule_regex := Sample.key "(b)";
        rule_repl_func := ComplexFunc [(1%Z, Sample.red)] |}] (str "abc")
  = Ok (str "abc") ∧
  str "abc" ≠ str "a" ++ Sample.red ++ str "b" ++ default_reset_string
              ++ str "c".
Proof. repeat split; try reflexivity. discriminate. Qed.

(** C3: a rule record whose pattern is the integer 5 passes validation and
    compiles with a simple action, and highlighting any line with it raises
    [TypeError]; with a complex action the same pattern makes [parse_rule]
    itself raise [TypeError], which [parse_config] lets through. *)
Theorem integer_pattern_raises :
  parse_rule Sample.get_code Sample.re_compile Sample.integer_rule
    initial_config
  = Ok (Compiled {| rule_regex := PInt 5;
                    rule_repl_func :=
                      SimpleFunc Sample.red default_reset_string |}) ∧
  highlight Sample.re_compile
    [{| rule_regex := PInt 5;
        rule_repl_func := SimpleFunc Sample.red default_reset_string |}]
    (str "abc")
  = Raise TypeError ∧
  parse_rule Sample.get_code Sample.re_compile Sample.integer_group_rule
    initial_config
  = Raise TypeError ∧
  parse_rules Sample.get_code Sample.re_compile
    [Sample.rule1; Sample.integer_group_rule] initial_config
  = (Raise TypeError, []).
Proof. repeat split; reflexivity. Qed.

(** C4: an empty document, a scalar document and a list document are loaded
    without a YAML error, and [parse_config] raises [AttributeError] on each
    of them, reporting nothing. *)
Theorem parse_config_raises_on_non_mapping :
  Sample.safe_load [] = Some PNone ∧
  parse_config Sample.get_code Sample.re_compile Sample.safe_load []
  = (Raise AttributeError, []) ∧
  parse_config Sample.get_code Sample.re_compile Sample.safe_load (str "42")
  = (Raise AttributeError, []) ∧
  parse_config Sample.get_code Sample.re_compile Sample.safe_load (str "- a")
  = (Raise AttributeError, []).
Proof. repeat split; reflexivity. Qed.


(** C7 fails as stated: the key [-1] is not a non-negative integer, yet the
    rule is compiled, with the red code filed under group [-1]. *)
Lemma negative_group_key_accepted :
  ¬ spec_sub_action_validation
      (parse_rule Sample.get_code Sample.re_compile Sample.negative_key_rule
         initial_config)
      [(PInt (-1), Sample.key "red")].
Proof.
  intros [Hrefused _].
  destruct Hrefused as [k [Hk|Hk]]; [|vm_compute in Hk; discriminate..].
  constructor. reflexivity.
Qed.

(** ** The theorems at work on the sample inputs *)

Lemma main_raises_attribute_error_witness :
  args_init Sample.argparse_config [str "--config"; str "x"]
  = Ok {[ "config"%string := PStr (str "x") ]} ∧
  ({[ "config"%string := PStr (str "x") ]} : gmap string pyval)
    !! "demo"%string = None ∧
  main Sample.get_code Sample.re_compile Sample.safe_load
    Sample.argparse_config [str "--config"; str "x"] Sample.files [] 3
  = (Raise AttributeError, []).
Proof.
  split; [reflexivity|].
  apply (main_raises_attribute_error Sample.get_code Sample.re_compile
           Sample.safe_load Sample.argparse_config
           [str "--config"; str "x"]).
  reflexivity.
Defined.


Lemma process_buffer_source_closed_witness :
  Forall (λ line, returns (highlight Sample.re_compile
                             (rules Sample.red_a_config) line))
         (splitlines Sample.two_lines) ∧
  (Sample.two_lines = [] →
     process_buffer Sample.re_compile Sample.red_a_config Sample.two_lines
       false true = (Ok [], [])) ∧
  (Sample.two_lines ≠ [] →
     ∃ segs seg outs out,
       concat (segs ++ [seg]) = Sample.two_lines ∧
       Forall2 (λ l o, highlight Sample.re_compile
                         (rules Sample.red_a_config) l = Ok o)
               (segs ++ [seg]) (outs ++ [out]) ∧
       process_buffer Sample.re_compile Sample.red_a_config Sample.two_lines
         false true = (Ok [], prints outs ++ [Print out true])).
Proof.
  assert (Hret : Forall (λ line, returns (highlight Sample.re_compile
                                   (rules Sample.red_a_config) line))
                        (splitlines Sample.two_lines)).
  { vm_compute. repeat constructor; eexists; reflexivity. }
  split; [exact Hret|].
  exact (process_buffer_source_closed Sample.re_compile Sample.red_a_config
           Sample.two_lines true Hret).
Defined.

Lemma parse_rule_sub_actions_witness :
  dict_get (str "regex") Sample.mixed_rule_fields = Sample.key "a" ∧
  truthy (Sample.key "a") = true ∧
  isinstance_str (Sample.key "a") || isinstance_int (Sample.key "a") = true ∧
  dict_get (str "color") Sample.mixed_rule_fields
  = PDict Sample.mixed_sub_actions ∧
  (Forall (λ item, sub_action_ok item = true) Sample.mixed_sub_actions →
     ∀ k, ¬ sub_action_error
              (parse_rule Sample.get_code Sample.re_compile
                 (PDict Sample.mixed_rule_fields) initial_config) k) ∧
  (¬ Forall (λ item, sub_action_ok item = true) Sample.mixed_sub_actions →
     ∃ good k v rest,
       Sample.mixed_sub_actions = good ++ (k, v) :: rest ∧
       Forall (λ item, sub_action_ok item = true) good ∧
       sub_action_ok (k, v) = false ∧
       parse_rule Sample.get_code Sample.re_compile
         (PDict Sample.mixed_rule_fields) initial_config
       = Ok (ErrorString (if isinstance_int k then SubActionValueNotString k
                          else SubActionNotInteger k))).
Proof.
  repeat (split; [reflexivity|]).
  apply (parse_rule_sub_actions Sample.get_code Sample.re_compile
           initial_config Sample.mixed_rule_fields (Sample.key "a")
           Sample.mixed_sub_actions); reflexivity.
Defined.

Lemma highlight_single_simple_rule_witness :
  Sample.get_code (str "red") = Some Sample.red ∧
  Sample.red ≠ [] ∧
  Sample.re_compile (str "b") = Some (Sample.literal (str "b")) ∧
  finditer (Sample.literal (str "b")) (str "a" ++ str "b" ++ str "c")
  = [{| m_start := length (str "a");
        m_end := length (str "a") + length (str "b"); m_groups := [] |}] ∧
  ∃ r, get_highlight_repl_func Sample.get_code Sample.re_compile
         initial_config (PStr (str "b")) (PStr (str "red"))
       = Ok (Compiled r) ∧
       highlight Sample.re_compile [r] (str "a" ++ str "b" ++ str "c")
       = Ok (str "a" ++ Sample.red ++ str "b"
             ++ reset_string initial_config ++ str "c").
Proof.
  assert (Hred : Sample.red ≠ []) by discriminate.
  split; [reflexivity|]. split; [exact Hred|].
  split; [reflexivity|]. split; [reflexivity|].
  apply (highlight_single_simple_rule Sample.get_code Sample.re_compile
           initial_config (str "b") (str "red") Sample.red
           (Sample.literal (str "b")) (str "a") (str "b") (str "c") []);
    [reflexivity|exact Hred|reflexivity|reflexivity].
Defined.


Lemma highlight_no_match_witness :
  Forall (λ r, no_match Sample.re_compile r (str "xyz")) [Sample.red_a] ∧
  highlight Sample.re_compile [Sample.red_a] (str "xyz") = Ok (str "xyz").
Proof.
  assert (Hno : Forall (λ r, no_match Sample.re_compile r (str "xyz"))
                       [Sample.red_a]).
  { repeat constructor.
    exists (str "a"), (Sample.literal (str "a")). repeat split; reflexivity. }
  split; [exact Hno|].
  exact (highlight_no_match Sample.re_compile [Sample.red_a] (str "xyz") Hno).
Defined.

(** The three-rule document: rules 1 and 3 are active, rule 2 is reported. *)
Example three_rules_two_active :
  parse_config Sample.get_code Sample.re_compile Sample.safe_load
    Sample.three_rules_text
  = (Ok {| rules :=
             [Sample.red_a;
              {| rule_regex := Sample.key "c";
                 rule_repl_func :=
                   SimpleFunc Sample.blue default_reset_string |}];
           reset_string := default_reset_string |},
     [Eprint (RuleErrorOn Sample.rule2 ColorNotFound)]).
Proof. reflexivity. Qed.

Example splitlines_keeps_terminators :
  splitlines (str "a" ++ [CR; LF; LF] ++ str "b" ++ [CR] ++ str "c")
  = [str "a" ++ [CR; LF]; [LF]; str "b" ++ [CR]; str "c"].
Proof. reflexivity. Qed.

(** The read loop on the chunks [ab], [cd] with a line feed, [ef], the probe
    firing after the first two only, then the source closing: the held text
    is completed before it is printed, and the last fragment is flushed. *)
Example read_loop_three_chunks :
  read_loop Sample.re_compile 5 initial_config []
    [(str "ab", true); (str "cd" ++ [LF], true); (str "ef", false)]
  = (Ok (Some ()),
     [ReadStdin (str "ab");
      ReadStdin (str "cd" ++ [LF]);
      ReadStdin (str "ef");
      Print (str "abcd" ++ [LF]) false;
      Print (str "ef") true;
      ReadStdin []]).
Proof. reflexivity. Qed.

(** * Further properties of the code *)

(** ** The highlighter *)

Section Highlighter.

Variable re_compile : pystr → option Pattern.

Lemma re_sub_returns (regex : pyval) (f : repl_func) (line : pystr) :
  returns (re_sub re_compile regex f line)
  ↔ returns (re_compile_value re_compile regex).
Proof.
  unfold re_sub.
  destruct (re_compile_value re_compile regex) as [p|e]; simpl.
  - split; intros _; by eexists.
  - split; intros [? ?]; discriminate.
Qed.

(** Whether [highlight] returns does not depend on the line: it returns
    exactly when the pattern of every rule is text that the regex library
    compiles. *)
Theorem highlight_returns_iff (rules : list compiled_rule) (line : pystr) :
  returns (highlight re_compile rules line)
  ↔ Forall (λ r, returns (re_compile_value re_compile (rule_regex r))) rules.
Proof.
  revert line. induction rules as [|r rules IH]; intros line; simpl.
  - split; [constructor|intros _; by eexists].
  - rewrite Forall_cons, <- (re_sub_returns _ (rule_repl_func r) line).
    destruct (re_sub re_compile (rule_regex r) (rule_repl_func r) line)
      as [line'|e]; simpl.
    + rewrite IH. split; [intros H; split; [by eexists|done]|by intros [_ H]].
    + split; [intros [? ?]; discriminate|intros [[? ?] _]; discriminate].
Qed.

(** Rules compose in list order: highlighting with [rs1 ++ rs2] is
    highlighting with [rs1], then highlighting the result with [rs2]; an
    exception in the first part stops the second. *)
Theorem highlight_app (rs1 rs2 : list compiled_rule) (line : pystr) :
  highlight re_compile (rs1 ++ rs2) line
  = match highlight re_compile rs1 line with
    | Ok line' => highlight re_compile rs2 line'
    | Raise e => Raise e
    end.
Proof.
  revert line. induction rs1 as [|r rs1 IH]; intros line; simpl; [done|].
  destruct (re_sub re_compile (rule_regex r) (rule_repl_func r) line);
    simpl; [apply IH|done].
Qed.

Lemma slice_drop (pos i : nat) (text : pystr) :
  pos ≤ i → slice pos i text ++ drop i text = drop pos text.
Proof.
  intros Hle. unfold slice.
  replace i with (pos + (i - pos)) at 2 by lia.
  rewrite <- drop_drop. apply take_drop.
Qed.

(** With a complex action, replacing ordered matches copies the text. *)
Lemma sub_from_complex (actions : list (Z * pystr)) (text : pystr)
    (pos : nat) (ms : list Match) :
  ordered_spans pos ms →
  sub_from (ComplexFunc actions) text pos ms = drop pos text.
Proof.
  revert pos. induction ms as [|m ms IH]; intros pos Hord; [done|].
  destruct Hord as (Hs & He & Hrest). cbn [sub_from].
  rewrite (IH _ Hrest). unfold group0.
  replace (call_repl (ComplexFunc actions)
             (slice (m_start m) (m_end m) text))
    with (slice (m_start m) (m_end m) text)
    by (unfold call_repl; by destruct actions).
  by rewrite (slice_drop _ _ _ He), (slice_drop _ _ _ Hs).
Qed.

(** Rules with a complex action never change a line: whatever the groups
    and their colours, and however many matches the patterns find, the line
    comes back as it was. *)
Theorem complex_rules_leave_line (rules : list compiled_rule)
    (line : pystr) :
  Forall (λ r, ∃ p pat actions,
            rule_regex r = PStr p ∧ re_compile p = Some pat ∧
            rule_repl_func r = ComplexFunc actions ∧
            ordered_spans 0 (finditer pat line)) rules →
  highlight re_compile rules line = Ok line.
Proof.
  induction 1 as [|r rules (p & pat & actions & Hp & Hc & Hf & Hord) _ IH];
    [done|].
  simpl. unfold re_sub, re_compile_value. rewrite Hp, Hc, Hf. simpl.
  rewrite (sub_from_complex _ _ _ _ Hord), drop_0. exact IH.
Qed.

End Highlighter.

(** ** The rule compiler *)

Section Compiler.

Variable get_code : pystr → option pystr.
Variable re_compile : pystr → option Pattern.
Variable safe_load : pystr → option pyval.

Lemma check_sub_actions_none_inv (items : list (pyval * pyval)) :
  check_sub_actions items = None →
  Forall (λ item, sub_action_ok item = true) items.
Proof.
  induction items as [|[k v] items IH]; intros H; [constructor|].
  simpl in H.
  destruct (isinstance_int k) eqn:Hk; simpl in H; [|done].
  destruct (isinstance_str v) eqn:Hv; simpl in H; [|done].
  constructor; [|by apply IH].
  unfold sub_action_ok. simpl. by rewrite Hk, Hv.
Qed.

Lemma resolve_nonempty (name code : pystr) :
  resolve get_code name = Some code → code ≠ [].
Proof.
  unfold resolve. destruct (get_code name) as [[|c code']|]; [done| |done].
  by intros [= <-].
Qed.

(** On validated sub-actions the loop that builds [actions] does not raise. *)
Lemma build_actions_validated (n : nat) (items : list (pyval * pyval))
    (acc : list (Z * pystr)) :
  Forall (λ item, sub_action_ok item = true) items →
  returns (build_actions get_code n items acc).
Proof.
  intros Hok. revert acc.
  induction Hok as [|[k v] items Hkv _ IH]; intros acc; simpl;
    [by eexists|].
  unfold sub_action_ok in Hkv. simpl in Hkv.
  apply andb_true_iff in Hkv as [Hk Hv].
  destruct k; try done; destruct v; try done; simpl;
    (destruct (_ <=? _)%Z; [|apply IH];
     destruct (resolve get_code s); [apply IH|by eexists]).
Qed.

(** Entries whose group number exceeds the group count play no part. *)
Lemma build_actions_filter (n : nat) (items : list (pyval * pyval))
    (acc : list (Z * pystr)) :
  build_actions get_code n items acc
  = build_actions get_code n
      (filter (λ item, within_groups n item = true) items) acc.
Proof.
  revert acc. induction items as [|[k v] items IH]; intros acc; [done|].
  destruct (within_groups n (k, v)) eqn:Hw.
  - rewrite filter_cons_True by done. simpl.
    destruct (int_value k) as [g|]; [|done].
    destruct (g <=? Z.of_nat n)%Z; [|apply IH].
    destruct v; try done. destruct (resolve get_code s); [apply IH|done].
  - rewrite filter_cons_False by (by rewrite Hw).
    unfold within_groups in Hw. simpl in *.
    destruct (int_value k) as [g|]; [|done]. rewrite Hw. apply IH.
Qed.

Lemma actions_set_ok (P : Z * pystr → Prop) (group : Z) (code : pystr)
    (actions : list (Z * pystr)) :
  P (group, code) → Forall P actions →
  Forall P (actions_set group code actions).
Proof.
  intros Hnew. induction 1 as [|[g c] actions Hgc Hrest IH]; simpl.
  - by repeat constructor.
  - destruct (g =? group)%Z eqn:Hg.
    + apply Z.eqb_eq in Hg as ->. by constructor.
    + by constructor.
Qed.

Lemma build_actions_ok (n : nat) (items : list (pyval * pyval))
    (acc actions : list (Z * pystr)) :
  build_actions get_code n items acc = Ok (Some actions) →
  Forall (λ a, (a.1 ≤ Z.of_nat n)%Z ∧ a.2 ≠ []) acc →
  Forall (λ a, (a.1 ≤ Z.of_nat n)%Z ∧ a.2 ≠ []) actions.
Proof.
  revert acc. induction items as [|[k v] items IH]; intros acc H Hacc.
  - simpl in H. by injection H as <-.
  - simpl in H. destruct (int_value k) as [g|]; [|done].
    destruct (g <=? Z.of_nat n)%Z eqn:Hle; [|by eapply IH].
    destruct v; try done.
    destruct (resolve get_code s) as [code|] eqn:Hres; [|done].
    eapply IH; [exact H|]. apply actions_set_ok; [|done]. simpl.
    split; [by apply Z.leb_le|by eapply resolve_nonempty].
Qed.

(** Group-index pruning: with validated sub-actions and a pattern that
    compiles, the entries whose group number exceeds the pattern's group count
    are ignored: the rule compiles as if they were not there, whatever colour
    they name. *)
Theorem complex_action_prunes (cfg : config) (regex : pyval)
    (items : list (pyval * pyval)) (pat : Pattern) :
  check_sub_actions items = None →
  re_compile_value re_compile regex = Ok pat →
  get_highlight_repl_func get_code re_compile cfg regex (PDict items)
  = get_highlight_repl_func get_code re_compile cfg regex
      (PDict (filter (λ item, within_groups (groups pat) item = true) items)).
Proof.
  intros _ Hpat. unfold get_highlight_repl_func. rewrite Hpat. simpl.
  by rewrite <- build_actions_filter.
Qed.

(** [parse_rule] on a mapping, with [rule.get] done. *)
Lemma parse_rule_mapping (fields : list (pyval * pyval)) (cfg : config) :
  parse_rule get_code re_compile (PDict fields) cfg
  = let regex := dict_get (str "regex") fields in
    if negb (truthy regex) then Ok (ErrorString RegexNotFound)
    else if negb (isinstance_str regex) && negb (isinstance_int regex)
    then Ok (ErrorString RegexNotStringOrInteger)
    else
      let color := dict_get (str "color") fields in
      if negb (truthy color) then Ok (ErrorString ColorNotFound)
      else if negb (isinstance_str color) && negb (isinstance_dict color)
      then Ok (ErrorString ColorNotStringOrDictionary)
      else
        match
          match color with
          | PDict items => check_sub_actions items
          | _ => None
          end
        with
        | Some e => Ok (ErrorString e)
        | None => get_highlight_repl_func get_code re_compile cfg regex color
        end.
Proof. reflexivity. Qed.

(** [parse_rule] raises in two situations only: the rule record is not a
    mapping ([AttributeError] at [rule.get]), or its colour is a mapping and
    the regex library refuses the pattern when it is compiled to count its
    groups.  A rule with a text colour never makes [parse_rule] raise. *)
Theorem parse_rule_raises_only (rule : pyval) (cfg : config) (e : exn) :
  parse_rule get_code re_compile rule cfg = Raise e →
  (isinstance_dict rule = false ∧ e = AttributeError) ∨
  (∃ fields items,
     rule = PDict fields ∧
     dict_get (str "color") fields = PDict items ∧
     re_compile_value re_compile (dict_get (str "regex") fields) = Raise e).
Proof.
  intros H.
  destruct rule as [|b|z|m x|s|l|fields];
    try (left; split; [done|]; unfold parse_rule in H; simpl in H;
         congruence).
  right. exists fields. rewrite parse_rule_mapping in H. cbv zeta in H.
  destruct (truthy (dict_get (str "regex") fields)); cbn [negb] in H; [|done].
  destruct (negb (isinstance_str (dict_get (str "regex") fields)) &&
            negb (isinstance_int (dict_get (str "regex") fields)));
    [done|].
  destruct (truthy (dict_get (str "color") fields)); cbn [negb] in H; [|done].
  destruct (dict_get (str "color") fields) as [|b|z|m x|name|l|items] eqn:Hc;
    try done.
  - cbn in H. unfold get_highlight_repl_func in H.
    by destruct (resolve get_code name).
  - exists items. split; [done|]. split; [done|].
    cbn [isinstance_str isinstance_dict negb andb] in H.
    destruct (check_sub_actions items) eqn:Hchk; [done|].
    unfold get_highlight_repl_func, mbind, result_bind in H.
    destruct (re_compile_value re_compile (dict_get (str "regex") fields))
      as [pat|e'] eqn:Hre; [|congruence].
    destruct (build_actions_validated (groups pat) items []
                (check_sub_actions_none_inv _ Hchk)) as [built Hb].
    rewrite Hb in H. by destruct built.
Qed.

End Compiler.

(** ** Validation order and what a parsed configuration holds *)

Section Validation.

Variable get_code : pystr → option pystr.
Variable re_compile : pystr → option Pattern.
Variable safe_load : pystr → option pyval.

(** After the four checks on the pattern and the colour, the only error
    strings left are the sub-action messages and 'invalid color code'. *)
Lemma last_stage_errors (cfg : config) (regex color : pyval)
    (e : rule_error) :
  match
    match color with
    | PDict items => check_sub_actions items
    | _ => None
    end
  with
  | Some e => Ok (ErrorString e)
  | None => get_highlight_repl_func get_code re_compile cfg regex color
  end = Ok (ErrorString e) →
  e = InvalidColorCode ∨
  ∃ k, e = SubActionNotInteger k ∨ e = SubActionValueNotString k.
Proof.
  assert (Hg : ∀ c, get_highlight_repl_func get_code re_compile cfg regex c
                    = Ok (ErrorString e) → e = InvalidColorCode).
  { intros c. unfold get_highlight_repl_func, mbind, result_bind.
    destruct c; try done.
    - destruct (resolve get_code s); congruence.
    - destruct (re_compile_value re_compile regex); [|done].
      destruct (build_actions get_code (groups a) items []) as [[?|]|];
        congruence. }
  destruct color; try (intros H; left; by eapply Hg).
  destruct (check_sub_actions items) as [e'|] eqn:Hchk;
    [|intros H; left; by eapply Hg].
  intros [= <-]. right. clear Hg.
  induction items as [|[k v] items IH]; [done|]. simpl in Hchk.
  destruct (negb (isinstance_int k)); [exists k; left; congruence|].
  destruct (negb (isinstance_str v)); [exists k; right; congruence|].
  by apply IH.
Qed.

(** The checks of [parse_rule] on a mapping are made in a fixed order, and
    each of the first four messages is returned exactly when the checks
    before it pass and its own fails: a missing, empty or zero pattern is
    'regex not found' whatever the colour; a pattern that is neither text nor
    an [int] instance is 'regex not string or integer'; then a missing or
    empty colour is 'color not found'; then a colour that is neither text nor
    a mapping is 'color not string or dictionary'. *)
Theorem parse_rule_validation_order (fields : list (pyval * pyval))
    (cfg : config) :
  (parse_rule get_code re_compile (PDict fields) cfg
     = Ok (ErrorString RegexNotFound)
   ↔ truthy (dict_get (str "regex") fields) = false) ∧
  (parse_rule get_code re_compile (PDict fields) cfg
     = Ok (ErrorString RegexNotStringOrInteger)
   ↔ truthy (dict_get (str "regex") fields) = true ∧
     isinstance_str (dict_get (str "regex") fields) = false ∧
     isinstance_int (dict_get (str "regex") fields) = false) ∧
  (parse_rule get_code re_compile (PDict fields) cfg
     = Ok (ErrorString ColorNotFound)
   ↔ truthy (dict_get (str "regex") fields) = true ∧
     isinstance_str (dict_get (str "regex") fields)
       || isinstance_int (dict_get (str "regex") fields) = true ∧
     truthy (dict_get (str "color") fields) = false) ∧
  (parse_rule get_code re_compile (PDict fields) cfg
     = Ok (ErrorString ColorNotStringOrDictionary)
   ↔ truthy (dict_get (str "regex") fields) = true ∧
     isinstance_str (dict_get (str "regex") fields)
       || isinstance_int (dict_get (str "regex") fields) = true ∧
     truthy (dict_get (str "color") fields) = true ∧
     isinstance_str (dict_get (str "color") fields) = false ∧
     isinstance_dict (dict_get (str "color") fields) = false).
Proof.
  rewrite parse_rule_mapping. cbv zeta.
  pose proof (last_stage_errors cfg (dict_get (str "regex") fields)
                (dict_get (str "color") fields)) as Hlast.
  destruct (truthy (dict_get (str "regex") fields));
    cbn [negb andb orb]; [|by repeat split; intros; destruct_and?].
  destruct (isinstance_str (dict_get (str "regex") fields));
    destruct (isinstance_int (dict_get (str "regex") fields));
    cbn [negb andb orb]; try (by repeat split; intros; destruct_and?);
    (destruct (truthy (dict_get (str "color") fields));
       cbn [negb andb orb]; [|by repeat split; intros; destruct_and?];
     destruct (isinstance_str (dict_get (str "color") fields));
       destruct (isinstance_dict (dict_get (str "color") fields));
       cbn [negb andb orb]; try (by repeat split; intros; destruct_and?);
     repeat split; intros; destruct_and?; try done;
     match goal with
     | H : _ = Ok (ErrorString _) |- _ =>
         apply Hlast in H as [?|[k [?|?]]]; done
     end).
Qed.

Lemma get_highlight_repl_func_closure (cfg : config) (regex color : pyval)
    (r : compiled_rule) :
  get_highlight_repl_func get_code re_compile cfg regex color
    = Ok (Compiled r) →
  closure_ok re_compile (reset_string cfg) r.
Proof.
  unfold get_highlight_repl_func, mbind, result_bind, closure_ok.
  destruct color; try done.
  - destruct (resolve get_code s) as [code|] eqn:Hres; [|done].
    intros [= <-]. simpl. split; [by eapply resolve_nonempty|done].
  - destruct (re_compile_value re_compile regex) as [pat|] eqn:Hre; [|done].
    destruct (build_actions get_code (groups pat) items [])
      as [[actions|]|] eqn:Hb; try done.
    intros [= <-]. simpl. exists pat. split; [done|].
    eapply build_actions_ok; [exact Hb|constructor].
Qed.

Lemma parse_rule_closure (rule : pyval) (cfg : config) (r : compiled_rule) :
  parse_rule get_code re_compile rule cfg = Ok (Compiled r) →
  closure_ok re_compile (reset_string cfg) r.
Proof.
  destruct rule as [|b|z|m x|s|l|fields]; try done.
  rewrite parse_rule_mapping. cbv zeta.
  destruct (negb (truthy (dict_get (str "regex") fields))); [done|].
  destruct (negb (isinstance_str (dict_get (str "regex") fields)) &&
            negb (isinstance_int (dict_get (str "regex") fields))); [done|].
  destruct (negb (truthy (dict_get (str "color") fields))); [done|].
  destruct (negb (isinstance_str (dict_get (str "color") fields)) &&
            negb (isinstance_dict (dict_get (str "color") fields))); [done|].
  destruct (match dict_get (str "color") fields with
            | PDict items => check_sub_actions items
            | _ => None
            end); [done|].
  apply get_highlight_repl_func_closure.
Qed.

(** One turn of the loop over the rule records. *)
Lemma parse_rules_cons (rule : pyval) (rest : list pyval) (cfg : config) :
  parse_rules get_code re_compile (rule :: rest) cfg
  = match parse_rule get_code re_compile rule cfg with
    | Raise e => (Raise e, [])
    | Ok (Compiled r) =>
        parse_rules get_code re_compile rest
          {| rules := rules cfg ++ [r]; reset_string := reset_string cfg |}
    | Ok (ErrorString e) =>
        let '(res, t) := parse_rules get_code re_compile rest cfg in
        (res, Eprint (RuleErrorOn rule e) :: t)
    end.
Proof.
  simpl. unfold mbind, io_bind, lift, emit, ret.
  destruct (parse_rule get_code re_compile rule cfg) as [[r|e]|e]; simpl;
    try done.
  - by destruct (parse_rules get_code re_compile rest _) as [[?|?] ?].
  - by destruct (parse_rules get_code re_compile rest cfg) as [[?|?] ?].
Qed.

Lemma parse_rules_closure (rs : list pyval) (cfg cfg' : config)
    (t : list event) :
  parse_rules get_code re_compile rs cfg = (Ok cfg', t) →
  Forall (closure_ok re_compile (reset_string cfg)) (rules cfg) →
  reset_string cfg' = reset_string cfg ∧
  Forall (closure_ok re_compile (reset_string cfg)) (rules cfg').
Proof.
  revert cfg t. induction rs as [|rule rs IH]; intros cfg t H Hok.
  - simpl in H. by injection H as <- _.
  - rewrite parse_rules_cons in H.
    destruct (parse_rule get_code re_compile rule cfg) as [[r|e]|e] eqn:Hr;
      [| |done].
    + apply IH in H as [Hreset Hall]; simpl in *; [done|].
      apply Forall_app. split; [done|]. constructor; [|done].
      by eapply parse_rule_closure.
    + destruct (parse_rules get_code re_compile rs cfg) as [res t'] eqn:Hrs.
      injection H as -> _. by eapply IH.
Qed.

(** Whatever the document, a configuration that [parse_config] returns has
    the default reset string, and each of its rules is sound: a simple rule
    carries a non-empty colour code and that reset string; a complex rule has
    a pattern the regex library compiles, and non-empty colour codes filed
    under group numbers no larger than the pattern's group count. *)
Theorem parse_config_rules_sound (data : pystr) (cfg : config)
    (t : list event) :
  parse_config get_code re_compile safe_load data = (Ok cfg, t) →
  reset_string cfg = default_reset_string ∧
  Forall (closure_ok re_compile default_reset_string) (rules cfg).
Proof.
  unfold parse_config. destruct (safe_load data) as [load|].
  - destruct load as [|b|z|m x|s|l|fields]; try done.
    unfold mbind, io_bind, lift. simpl.
    destruct (parse_rules _ _ _ initial_config) as [res t'] eqn:Hrs.
    intros [= -> _].
    apply parse_rules_closure in Hrs; [done|constructor].
  - intros [= <- _]. split; [done|constructor].
Qed.


End Validation.

(** ** One pass of the driver, and the read loop *)

Section Loop.

Variable get_code : pystr → option pystr.
Variable re_compile : pystr → option Pattern.
Variable safe_load : pystr → option pyval.
Variable argparse_config : list pystr → option (option pystr).

(** [process_buffer] with its sequencing spelled out. *)
Lemma process_buffer_unfold (cfg : config) (buffer : pystr)
    (more ready : bool) :
  process_buffer re_compile cfg buffer more ready
  = match splitlines buffer with
    | [] => (Ok [], [])
    | _ =>
        match print_lines re_compile (rules cfg)
                (all_but_last (splitlines buffer)) with
        | (Raise e, t) => (Raise e, t)
        | (Ok _, t) =>
            if ready && more then (Ok (last_line (splitlines buffer)), t)
            else match highlight re_compile (rules cfg)
                         (last_line (splitlines buffer)) with
                 | Ok out => (Ok [], t ++ [Print out true])
                 | Raise e => (Raise e, t)
                 end
        end
    end.
Proof.
  unfold process_buffer. destruct (splitlines buffer) as [|l ls]; [done|].
  unfold mbind, io_bind, lift, emit, ret.
  destruct (print_lines re_compile (rules cfg) (all_but_last (l :: ls)))
    as [[[]|e] t]; [|done].
  destruct (ready && more); [by rewrite app_nil_r|].
  destruct (highlight re_compile (rules cfg) (last_line (l :: ls)));
    simpl; by rewrite ?app_nil_r.
Qed.

(** The last segment is the end of the buffer. *)
Lemma last_line_suffix (buffer : pystr) :
  buffer ≠ [] →
  buffer = concat (all_but_last (splitlines buffer))
           ++ last_line (splitlines buffer).
Proof.
  intros Hne.
  assert (Hl : splitlines buffer ≠ []) by (by rewrite splitlines_nil).
  rewrite <- (concat_splitlines buffer) at 1.
  rewrite <- (lines_split _ Hl) at 1.
  rewrite concat_app. simpl. by rewrite app_nil_r.
Qed.

Lemma last_line_no_inner_break (buffer : pystr) :
  no_inner_break (last_line (splitlines buffer)).
Proof.
  pose proof (splitlines_no_inner_break buffer) as Hall.
  unfold last_line. destruct (last (splitlines buffer)) as [l|] eqn:Hlast.
  - apply last_Some in Hlast as [ls Hls]. rewrite Hls in Hall.
    rewrite Forall_app, Forall_singleton in Hall. exact (proj2 Hall).
  - simpl. intros pre c post Heq. by destruct pre.
Qed.

(** Text is only ever held back when more data is expected and the readiness
    probe has fired, and what is held is then the last segment of the buffer:
    an end of the buffer with no line boundary inside it. *)
Theorem process_buffer_holds_only_when_more (cfg : config) (buffer : pystr)
    (more ready : bool) (leftover : pystr) (t : list event) :
  process_buffer re_compile cfg buffer more ready = (Ok leftover, t) →
  leftover ≠ [] →
  more = true ∧ ready = true ∧
  buffer = concat (all_but_last (splitlines buffer)) ++ leftover ∧
  no_inner_break leftover.
Proof.
  rewrite process_buffer_unfold. intros H Hne.
  destruct (splitlines buffer) as [|l ls] eqn:Hs; [by injection H as <-|].
  assert (Hb : buffer ≠ []) by (intros ->; done).
  rewrite <- Hs in *.
  destruct (print_lines _ _ _) as [[[]|e] t']; [|done].
  destruct ready, more; simpl in H;
    try (destruct (highlight _ _ _); [by injection H as <-|done]).
  injection H as <- _. repeat split.
  - by apply last_line_suffix.
  - apply last_line_no_inner_break.
Qed.

(** A text with no line boundary is one segment. *)
Lemma splitlines_single (s : pystr) :
  s ≠ [] → Forall (λ c, is_linebreak c = false) s → splitlines s = [s].
Proof.
  intros Hne Hall. induction Hall as [|c rest Hc Hrest IH]; [done|].
  simpl. unfold ends_line. rewrite Hc. simpl.
  destruct rest as [|d rest']; [done|]. by rewrite IH.
Qed.

(** A partial line is not printed while more data is on its way: a buffer
    with no line boundary in it is returned whole and nothing is printed when
    more data is expected and the readiness probe fires. *)
Theorem process_buffer_holds_partial_line (cfg : config) (buffer : pystr) :
  buffer ≠ [] →
  Forall (λ c, is_linebreak c = false) buffer →
  process_buffer re_compile cfg buffer true true = (Ok buffer, []).
Proof.
  intros Hne Hall. rewrite process_buffer_unfold.
  by rewrite (splitlines_single _ Hne Hall).
Qed.

Lemma printed_app (t1 t2 : list event) :
  printed (t1 ++ t2) = printed t1 ++ printed t2.
Proof.
  induction t1 as [|[] t1 IH]; simpl; try done. by rewrite IH, app_assoc.
Qed.

Lemma read_data_app (t1 t2 : list event) :
  read_data (t1 ++ t2) = read_data t1 ++ read_data t2.
Proof.
  induction t1 as [|[] t1 IH]; simpl; try done. by rewrite IH, app_assoc.
Qed.

Lemma printed_prints (outs : list pystr) : printed (prints outs) = concat outs.
Proof. induction outs as [|o outs IH]; simpl; [done|]. by rewrite IH. Qed.

Lemma read_data_prints (outs : list pystr) : read_data (prints outs) = [].
Proof. by induction outs. Qed.

Lemma print_lines_no_rules (lines : list pystr) :
  print_lines re_compile [] lines = (Ok (), prints lines).
Proof.
  apply print_lines_outputs. induction lines; by constructor.
Qed.

(** With no rule, one pass prints its text as it is. *)
Lemma process_buffer_no_rules_trace (cfg : config) (buffer : pystr)
    (more ready : bool) :
  rules cfg = [] →
  ∃ leftover t,
    process_buffer re_compile cfg buffer more ready = (Ok leftover, t) ∧
    printed t ++ leftover = buffer ∧ read_data t = [].
Proof.
  intros Hrules. rewrite process_buffer_unfold, Hrules.
  destruct (splitlines buffer) as [|l ls] eqn:Hs.
  { apply splitlines_nil in Hs as ->. by exists [], []. }
  assert (Hb : buffer ≠ []) by (intros ->; done).
  rewrite <- Hs. rewrite print_lines_no_rules. simpl highlight.
  pose proof (last_line_suffix buffer Hb) as Hcat.
  destruct (ready && more).
  - eexists _, _. split; [done|]. by rewrite printed_prints, read_data_prints.
  - eexists _, _. split; [done|].
    rewrite printed_app, read_data_app, printed_prints, read_data_prints.
    simpl. by rewrite !app_nil_r.
Qed.

(** With an empty rule set a pass neither drops, adds nor reorders text:
    what it prints, followed by what it holds back, is the buffer. *)
Theorem process_buffer_no_rules (cfg : config) (buffer : pystr)
    (more ready : bool) :
  rules cfg = [] →
  ∃ leftover t,
    process_buffer re_compile cfg buffer more ready = (Ok leftover, t) ∧
    printed t ++ leftover = buffer.
Proof.
  intros Hrules.
  destruct (process_buffer_no_rules_trace cfg buffer more ready Hrules)
    as (leftover & t & H & Hcat & _).
  by exists leftover, t.
Qed.

(** One turn of the read loop. *)
Lemma read_loop_step (fuel : nat) (cfg : config) (buffer : pystr)
    (stdin : list (pystr * bool)) :
  read_loop re_compile (S fuel) cfg buffer stdin
  = let '(data, ready, stdin') :=
      match stdin with
      | [] => ([], true, [])
      | (d, r) :: rest => (d, r, rest)
      end in
    match buffer ++ data with
    | [] => (Ok (Some ()), [ReadStdin data])
    | _ =>
        match process_buffer re_compile cfg (buffer ++ data)
                (match data with [] => false | _ => true end) ready with
        | (Raise e, t) => (Raise e, ReadStdin data :: t)
        | (Ok buffer', t) =>
            let '(res, t') := read_loop re_compile fuel cfg buffer' stdin' in
            (res, ReadStdin data :: t ++ t')
        end
    end.
Proof.
  simpl. destruct stdin as [|[d r] rest]; unfold mbind, io_bind, emit, ret.
  - destruct (buffer ++ []) eqn:Hb; [done|]. rewrite <- Hb.
    destruct (process_buffer _ _ _ _ _) as [[b'|e] t]; [|done].
    by destruct (read_loop re_compile fuel cfg b' []) as [res t'].
  - destruct (buffer ++ d) eqn:Hb; [done|]. rewrite <- Hb.
    destruct (process_buffer _ _ _ _ _) as [[b'|e] t]; [|done].
    by destruct (read_loop re_compile fuel cfg b' rest) as [res t'].
Qed.

(** Once the source has closed nothing is held back. *)
Lemma process_buffer_closed_leftover (cfg : config) (buffer : pystr)
    (ready : bool) (leftover : pystr) (t : list event) :
  process_buffer re_compile cfg buffer false ready = (Ok leftover, t) →
  leftover = [].
Proof.
  rewrite process_buffer_unfold.
  destruct (splitlines buffer); [by intros [= <-]|].
  destruct (print_lines _ _ _) as [[[]|e] t']; [|done].
  rewrite andb_false_r. destruct (highlight _ _ _); [by intros [= <-]|done].
Qed.

(** The read loop stops: with two more turns than there are chunks to come
    it has reached its [break] or raised, so it never waits for data after the
    source has closed. *)
Theorem read_loop_terminates (fuel : nat) (cfg : config) (buffer : pystr)
    (stdin : list (pystr * bool)) :
  length stdin + 2 ≤ fuel →
  (read_loop re_compile fuel cfg buffer stdin).1 ≠ Ok None.
Proof.
  revert fuel buffer.
  induction stdin as [|[d r] rest IH]; intros fuel buffer Hfuel.
  - destruct fuel as [|[|fuel]]; simpl in Hfuel; [lia..|].
    rewrite read_loop_step. cbv zeta. rewrite app_nil_r.
    destruct buffer as [|c buffer]; [done|].
    destruct (process_buffer _ _ _ _ _) as [[b'|e] t] eqn:Hp; [|done].
    apply process_buffer_closed_leftover in Hp as ->.
    rewrite read_loop_step. done.
  - destruct fuel as [|fuel]; simpl in Hfuel; [lia|].
    rewrite read_loop_step. cbv zeta.
    destruct (buffer ++ d); [done|].
    destruct (process_buffer _ _ _ _ _) as [[b'|e] t]; [|done].
    specialize (IH fuel b' ltac:(lia)).
    by destruct (read_loop re_compile fuel cfg b' rest) as [res t'].
Qed.

(** With an empty rule set, a run of the read loop that reaches its [break]
    has printed, in order, exactly the text it started with followed by the
    text it read: nothing is lost, repeated or reordered across chunks. *)
Theorem read_loop_no_rules (fuel : nat) (cfg : config) (buffer : pystr)
    (stdin : list (pystr * bool)) (t : list event) :
  rules cfg = [] →
  read_loop re_compile fuel cfg buffer stdin = (Ok (Some ()), t) →
  printed t = buffer ++ read_data t.
Proof.
  intros Hrules. revert buffer stdin t.
  induction fuel as [|fuel IH]; intros buffer stdin t H; [done|].
  rewrite read_loop_step in H.
  destruct (match stdin with
            | [] => ([], true, [])
            | (d, r) :: rest => (d, r, rest)
            end) as [[data ready] stdin'].
  destruct (buffer ++ data) as [|c b] eqn:Hb.
  - injection H as <-. simpl. by rewrite app_nil_r.
  - rewrite <- Hb in H.
    destruct (process_buffer_no_rules_trace cfg (buffer ++ data)
                (match data with [] => false | _ => true end) ready Hrules)
      as (leftover & t1 & Hp & Hcat & Hread).
    rewrite Hp in H.
    destruct (read_loop re_compile fuel cfg leftover stdin')
      as [res t2] eqn:Hloop.
    injection H as -> <-. apply IH in Hloop. simpl.
    rewrite printed_app, read_data_app, Hloop, Hread. simpl.
    by rewrite !app_assoc, Hcat.
Qed.


End Loop.

(** ** An exception in the middle of the rule list *)

Section Abort.

Variable get_code : pystr → option pystr.
Variable re_compile : pystr → option Pattern.

(** The loop over the rule records has no handler: when [parse_rule] raises
    on a record, the loop stops there with that exception; the diagnostics of
    the records before it have been printed, the rules compiled so far are
    lost, and the records after it are not looked at. *)
Theorem parse_rules_aborts (rs1 rs2 : list pyval) (rule : pyval)
    (cfg : config) (e : exn) :
  Forall (λ r, returns (parse_rule get_code re_compile r cfg)) rs1 →
  parse_rule get_code re_compile rule cfg = Raise e →
  parse_rules get_code re_compile (rs1 ++ rule :: rs2) cfg
  = (Raise e, omap (rule_error_report get_code re_compile cfg) rs1).
Proof.
  intros Hret. revert cfg Hret.
  induction rs1 as [|r rs1 IH]; intros cfg Hret Hraise.
  - simpl app. rewrite parse_rules_cons, Hraise. done.
  - apply Forall_cons in Hret as [[o Ho] Hrs1].
    simpl app. rewrite parse_rules_cons. cbn [omap list_omap].
    unfold rule_error_report at 1. rewrite Ho. destruct o as [c|err].
    + exact (IH {| rules := rules cfg ++ [c];
                   reset_string := reset_string cfg |} Hrs1 Hraise).
    + by rewrite (IH cfg Hrs1 Hraise).
Qed.

End Abort.

(** ** The further properties at work on the sample inputs *)

Lemma complex_rules_leave_line_witness :
  Forall (λ r, ∃ p pat actions,
            rule_regex r = PStr p ∧ Sample.re_compile p = Some pat ∧
            rule_repl_func r = ComplexFunc actions ∧
            ordered_spans 0 (finditer pat (str "abcb")))
         [{| rule_regex := Sample.key "(b)";
             rule_repl_func := ComplexFunc [(1%Z, Sample.red)] |}] ∧
  highlight Sample.re_compile
    [{| rule_regex := Sample.key "(b)";
        rule_repl_func := ComplexFunc [(1%Z, Sample.red)] |}] (str "abcb")
  = Ok (str "abcb").
Proof.
  assert (H : Forall (λ r, ∃ p pat actions,
                rule_regex r = PStr p ∧ Sample.re_compile p = Some pat ∧
                rule_repl_func r = ComplexFunc actions ∧
                ordered_spans 0 (finditer pat (str "abcb")))
              [{| rule_regex := Sample.key "(b)";
                  rule_repl_func := ComplexFunc [(1%Z, Sample.red)] |}]).
  { repeat constructor.
    exists (str "(b)"), (Sample.grouped (str "b")), [(1%Z, Sample.red)].
    repeat split; try reflexivity; vm_compute; repeat constructor. }
  split; [exact H|].
  exact (complex_rules_leave_line Sample.re_compile _ _ H).
Defined.

Lemma complex_action_prunes_witness :
  check_sub_actions
    [(PInt 1, Sample.key "red"); (PInt 2, Sample.key "nocolour")] = None ∧
  re_compile_value Sample.re_compile (Sample.key "(b)")
  = Ok (Sample.grouped (str "b")) ∧
  get_highlight_repl_func Sample.get_code Sample.re_compile initial_config
    (Sample.key "(b)")
    (PDict [(PInt 1, Sample.key "red"); (PInt 2, Sample.key "nocolour")])
  = get_highlight_repl_func Sample.get_code Sample.re_compile initial_config
      (Sample.key "(b)")
      (PDict (filter (λ item, within_groups
                                (groups (Sample.grouped (str "b"))) item
                              = true)
                [(PInt 1, Sample.key "red");
                 (PInt 2, Sample.key "nocolour")])).
Proof.
  split; [reflexivity|]. split; [reflexivity|].
  apply (complex_action_prunes Sample.get_code Sample.re_compile
           initial_config (Sample.key "(b)")
           [(PInt 1, Sample.key "red"); (PInt 2, Sample.key "nocolour")]
           (Sample.grouped (str "b"))); reflexivity.
Defined.

Lemma parse_rule_raises_only_witness :
  parse_rule Sample.get_code Sample.re_compile Sample.integer_group_rule
    initial_config = Raise TypeError ∧
  ((isinstance_dict Sample.integer_group_rule = false ∧
    TypeError = AttributeError) ∨
   (∃ fields items,
      Sample.integer_group_rule = PDict fields ∧
      dict_get (str "color") fields = PDict items ∧
      re_compile_value Sample.re_compile (dict_get (str "regex") fields)
      = Raise TypeError)).
Proof.
  split; [reflexivity|].
  apply (parse_rule_raises_only Sample.get_code Sample.re_compile
           Sample.integer_group_rule initial_config TypeError).
  reflexivity.
Defined.

Lemma parse_config_rules_sound_witness :
  parse_config Sample.get_code Sample.re_compile Sample.safe_load
    Sample.three_rules_text
  = (Ok {| rules :=
             [Sample.red_a;
              {| rule_regex := Sample.key "c";
                 rule_repl_func :=
                   SimpleFunc Sample.blue default_reset_string |}];
           reset_string := default_reset_string |},
     [Eprint (RuleErrorOn Sample.rule2 ColorNotFound)]) ∧
  default_reset_string = default_reset_string ∧
  Forall (closure_ok Sample.re_compile default_reset_string)
         [Sample.red_a;
          {| rule_regex := Sample.key "c";
             rule_repl_func :=
               SimpleFunc Sample.blue default_reset_string |}].
Proof.
  split; [reflexivity|].
  apply (parse_config_rules_sound Sample.get_code Sample.re_compile
           Sample.safe_load Sample.three_rules_text
           {| rules :=
                [Sample.red_a;
                 {| rule_regex := Sample.key "c";
                    rule_repl_func :=
                      SimpleFunc Sample.blue default_reset_string |}];
              reset_string := default_reset_string |}
           [Eprint (RuleErrorOn Sample.rule2 ColorNotFound)]).
  reflexivity.
Defined.


Lemma process_buffer_holds_only_when_more_witness :
  process_buffer Sample.re_compile initial_config Sample.two_lines true true
  = (Ok (str "cd"), [Print Sample.one_line false]) ∧
  str "cd" ≠ [] ∧
  true = true ∧ true = true ∧
  Sample.two_lines
  = concat (all_but_last (splitlines Sample.two_lines)) ++ str "cd" ∧
  no_inner_break (str "cd").
Proof.
  assert (Hne : str "cd" ≠ []) by discriminate.
  split; [reflexivity|]. split; [exact Hne|].
  apply (process_buffer_holds_only_when_more Sample.re_compile initial_config
           Sample.two_lines true true (str "cd")
           [Print Sample.one_line false]); [reflexivity|exact Hne].
Defined.

Lemma process_buffer_holds_partial_line_witness :
  str "ab" ≠ [] ∧
  Forall (λ c, is_linebreak c = false) (str "ab") ∧
  process_buffer Sample.re_compile Sample.red_a_config (str "ab") true true
  = (Ok (str "ab"), []).
Proof.
  assert (Hne : str "ab" ≠ []) by discriminate.
  assert (Hall : Forall (λ c, is_linebreak c = false) (str "ab")).
  { repeat constructor. }
  split; [exact Hne|]. split; [exact Hall|].
  exact (process_buffer_holds_partial_line Sample.re_compile
           Sample.red_a_config (str "ab") Hne Hall).
Defined.

Lemma process_buffer_no_rules_witness :
  rules initial_config = [] ∧
  ∃ leftover t,
    process_buffer Sample.re_compile initial_config Sample.two_lines
      true true = (Ok leftover, t) ∧
    printed t ++ leftover = Sample.two_lines.
Proof.
  split; [reflexivity|].
  apply (process_buffer_no_rules Sample.re_compile initial_config
           Sample.two_lines true true).
  reflexivity.
Defined.

Lemma read_loop_terminates_witness :
  length [(str "ab", true); (str "cd" ++ [LF], true); (str "ef", false)] + 2
    ≤ 5 ∧
  (read_loop Sample.re_compile 5 initial_config []
     [(str "ab", true); (str "cd" ++ [LF], true); (str "ef", false)]).1
  ≠ Ok None.
Proof.
  assert (H : length [(str "ab", true); (str "cd" ++ [LF], true);
                      (str "ef", false)] + 2 ≤ 5) by (simpl; lia).
  split; [exact H|].
  exact (read_loop_terminates Sample.re_compile 5 initial_config [] _ H).
Defined.

Lemma read_loop_no_rules_witness :
  rules initial_config = [] ∧
  read_loop Sample.re_compile 5 initial_config []
    [(str "ab", true); (str "cd" ++ [LF], true); (str "ef", false)]
  = (Ok (Some ()),
     [ReadStdin (str "ab");
      ReadStdin (str "cd" ++ [LF]);
      ReadStdin (str "ef");
      Print (str "abcd" ++ [LF]) false;
      Print (str "ef") true;
      ReadStdin []]) ∧
  printed [ReadStdin (str "ab");
           ReadStdin (str "cd" ++ [LF]);
           ReadStdin (str "ef");
           Print (str "abcd" ++ [LF]) false;
           Print (str "ef") true;
           ReadStdin []]
  = [] ++ read_data [ReadStdin (str "ab");
                     ReadStdin (str "cd" ++ [LF]);
                     ReadStdin (str "ef");
                     Print (str "abcd" ++ [LF]) false;
                     Print (str "ef") true;
                     ReadStdin []].
Proof.
  split; [reflexivity|]. split; [reflexivity|].
  apply (read_loop_no_rules Sample.re_compile 5 initial_config []
           [(str "ab", true); (str "cd" ++ [LF], true); (str "ef", false)]);
    reflexivity.
Defined.

Lemma parse_rules_aborts_witness :
  Forall (λ r, returns (parse_rule Sample.get_code Sample.re_compile r
                          initial_config)) [Sample.rule2] ∧
  parse_rule Sample.get_code Sample.re_compile Sample.integer_group_rule
    initial_config = Raise TypeError ∧
  parse_rules Sample.get_code Sample.re_compile
    ([Sample.rule2] ++ Sample.integer_group_rule :: [Sample.rule3])
    initial_config
  = (Raise TypeError,
     omap (rule_error_report Sample.get_code Sample.re_compile initial_config)
          [Sample.rule2]).
Proof.
  assert (H : Forall (λ r, returns (parse_rule Sample.get_code
                                      Sample.re_compile r initial_config))
                     [Sample.rule2]).
  { repeat constructor. eexists. reflexivity. }
  split; [exact H|]. split; [reflexivity|].
  apply (parse_rules_aborts Sample.get_code Sample.re_compile
           [Sample.rule2] [Sample.rule3] Sample.integer_group_rule
           initial_config TypeError H).
  reflexivity.
Defined.
